(** * py-aws-util: cluster_manager.py and s3_manager.py

    A shallow embedding of the string handling of [parse_path] and
    [step_status], of the status normaliser, of the polling loops and of
    the pipe-based watch mechanism of [ClusterManager], followed by the
    properties established about them. *)

From Stdlib Require Import String Ascii List Bool Arith Lia.
Import ListNotations.
Open Scope string_scope.

(** ** Exceptions and results of Python code *)

(** The exceptions the modelled code can raise.  [NoSuchKey] is
    [s3_client.exceptions.NoSuchKey]; [ClientError] stands for every other
    botocore failure and carries its error code; [DataError] stands for the
    failures of [gzip.decompress] and [bytes.decode]; [OSError] is what a
    closed [Connection] raises on [send]. *)
Inductive exn : Type :=
| AttributeError
| IndexError
| ValueError
| TypeError
| EOFError
| KeyError (key : string)
| NoSuchKey
| OSError (what : string)
| ClientError (code : string)
| DataError (what : string).

(** What running a piece of Python yields: a value, a raised exception, a
    read that blocks for ever on an open and empty pipe, or a loop that is
    still running when the fuel of the model is used up. *)
Inductive Outcome (A : Type) : Type :=
| Ok (a : A)
| Raise (e : exn)
| Blocked
| OutOfFuel.
Arguments Ok {A} a.
Arguments Raise {A} e.
Arguments Blocked {A}.
Arguments OutOfFuel {A}.

Definition obind {A B : Type} (m : Outcome A) (k : A -> Outcome B) : Outcome B :=
  match m with
  | Ok a => k a
  | Raise e => Raise e
  | Blocked => Blocked
  | OutOfFuel => OutOfFuel
  end.

(** ** Python string methods used by the source *)

Module PyStr.

Definition slash : ascii := "/"%char.
Definition newline : ascii := "010"%char.

(** [s[n:]] *)
Fixpoint drop (n : nat) (s : string) : string :=
  match n, s with
  | 0, _ => s
  | S _, EmptyString => EmptyString
  | S k, String _ s' => drop k s'
  end.

Fixpoint rev_onto (s acc : string) : string :=
  match s with
  | EmptyString => acc
  | String c s' => rev_onto s' (String c acc)
  end.

(** [s.endswith(suffix)] *)
Definition endswith (s suffix : string) : bool :=
  Nat.leb (String.length suffix) (String.length s)
  && String.eqb (drop (String.length s - String.length suffix) s) suffix.

(** [s.split(sep)] for a separator [String c0 sep']: a scan from the
    left; [skip] counts the characters of a separator just matched that
    are still to be passed over, [piece] holds the current piece in
    reverse. *)
Fixpoint split_scan (sep : string) (s : string) (skip : nat) (piece : string)
  : list string :=
  match s with
  | EmptyString => [rev_onto piece EmptyString]
  | String c s' =>
      match skip with
      | S k => split_scan sep s' k piece
      | 0 =>
          if String.prefix sep s
          then rev_onto piece EmptyString
                 :: split_scan sep s' (String.length sep - 1) EmptyString
          else split_scan sep s' 0 (String c piece)
      end
  end.

(** [s.split(sep)]; an empty separator is a [ValueError]. *)
Definition split (s sep : string) : Outcome (list string) :=
  match sep with
  | EmptyString => Raise ValueError
  | String _ _ => Ok (split_scan sep s 0 EmptyString)
  end.

(** [l[i]] *)
Definition index {A : Type} (l : list A) (i : nat) : Outcome A :=
  match nth_error l i with
  | Some x => Ok x
  | None => Raise IndexError
  end.

Fixpoint lstrip (c : ascii) (s : string) : string :=
  match s with
  | EmptyString => EmptyString
  | String a s' => if Ascii.eqb a c then lstrip c s' else s
  end.

Fixpoint rstrip (c : ascii) (s : string) : string :=
  match s with
  | EmptyString => EmptyString
  | String a s' =>
      match rstrip c s' with
      | EmptyString => if Ascii.eqb a c then EmptyString else String a EmptyString
      | r => String a r
      end
  end.

(** [s.strip(c)] for a one-character set *)
Definition strip (c : ascii) (s : string) : string := rstrip c (lstrip c s).

(** The lazy [.*?\/] part of the pattern: the shortest run of
    characters other than a newline that is followed by a slash. *)
Fixpoint lazy_dots_then_slash (s : string) : option string :=
  match s with
  | EmptyString => None
  | String c s' =>
      if Ascii.eqb c slash then Some (String slash EmptyString)
      else if Ascii.eqb c newline then None
      else option_map (String c) (lazy_dots_then_slash s')
  end.

(** [re.match(r"s3:\/\/.*?\/", path)]: [None] when the pattern does not
    match at the start of [path], else the matched text. *)
Definition re_match_s3 (path : string) : option string :=
  if String.prefix "s3://" path
  then option_map (String.append "s3://") (lazy_dots_then_slash (drop 5 path))
  else None.

(** [m.group()] on the result of [re.match]: an [AttributeError] on
    [None]. *)
Definition group (m : option string) : Outcome string :=
  match m with
  | Some g => Ok g
  | None => Raise AttributeError
  end.

(** [sub in s] *)
Fixpoint contains (sub s : string) : bool :=
  String.prefix sub s
  || match s with
     | EmptyString => false
     | String _ s' => contains sub s'
     end.

Fixpoint has_char (c : ascii) (s : string) : bool :=
  match s with
  | EmptyString => false
  | String a s' => Ascii.eqb a c || has_char c s'
  end.

End PyStr.

(** ** s3_manager.py *)

Module S3Manager.

Record ParsedPath : Type := mkParsedPath {
  path : string;
  bucket : string;
  key : string
}.

(** [parse_path]:
    regex = re.match(r"s3:\/\/.*?\/", path).group()
    bucket = regex.split("s3://")[1].strip("/")
    key = path.split(regex)[1] *)
Definition parse_path (p : string) : Outcome ParsedPath :=
  obind (PyStr.group (PyStr.re_match_s3 p)) (fun regex =>
  obind (PyStr.split regex "s3://") (fun parts =>
  obind (PyStr.index parts 1) (fun b =>
  obind (PyStr.split p regex) (fun pieces =>
  obind (PyStr.index pieces 1) (fun k =>
  Ok (mkParsedPath p (PyStr.strip PyStr.slash b) k)))))).

(** The path the listing code of [Session.list] rebuilds from a parse. *)
Definition unparse (pp : ParsedPath) : string :=
  "s3://" ++ bucket pp ++ "/" ++ key pp.

End S3Manager.

(** ** cluster_manager.py *)

Module ClusterManager.

(** *** Data *)

(** [response["Step"]["Status"]["FailureDetails"]]: both keys are
    optional in the service's answer. *)
Record FailureDetails : Type := mkFailureDetails {
  Reason : option string;
  LogFile : option string
}.

(** [response["Step"]] of [describe_step], with the keys [step_status]
    reads. *)
Record StepResponse : Type := mkStepResponse {
  Name : string;
  Args : list string;
  ActionOnFailure : string;
  State : string;
  Failure : option FailureDetails
}.

(** [output["failure_details"]] *)
Record FailureOutput : Type := mkFailureOutput {
  reason : string;
  logfile : string
}.

(** The [output] dictionary of [step_status]. *)
Record StatusRecord : Type := mkStatusRecord {
  name : string;
  parameters : list string;
  failure_mode : string;
  state : string;
  failure_details : option FailureOutput
}.

(** One element of the [Steps] argument of [run_job_flow]. *)
Record StepSpec : Type := mkStepSpec {
  step_name : string;
  action_on_failure : string;
  jar : string;
  jar_args : list string
}.

(** The arguments of [run_job_flow] that vary between calls. *)
Record JobFlowRequest : Type := mkJobFlowRequest {
  flow_name : string;
  keep_alive_when_no_steps : bool;
  flow_key_name : option string;
  flow_log_uri : option string;
  flow_steps : list StepSpec
}.

(** The answer of [run_job_flow]: a dictionary in which the key
    [JobFlowId] may be missing. *)
Record JobFlowResponse : Type := mkJobFlowResponse {
  JobFlowId : option string
}.

(** The services and library functions the class calls.
    [describe_step n] answers the [n]-th call made by the process. *)
Record Env : Type := mkEnv {
  describe_step : nat -> string -> string -> StepResponse;
  get_object : string -> string -> Outcome string;
  decompress_decode : string -> Outcome string;
  run_job_flow : JobFlowRequest -> JobFlowResponse;
  list_steps : string -> Outcome (list string);
  splitext : string -> string * string
}.

(** A callback is known by its name only; calling it is an event. *)
Inductive Callable : Type := Fn (fname : string).

(** [Process(target=..., args=...)] *)
Inductive Proc : Type :=
| PollProc (step_id cluster_id : string)
| ListenerProc (callback : option Callable) (callback_arg : option string).

(** The texts handed to [print], by their format string and arguments. *)
Inductive Message : Type :=
| MsgJobFlowIdMissing (response : JobFlowResponse)
| MsgStepShutdown (step_id cluster_id : string)
| MsgWaiting (read : string) (callback_arg : option string)
| MsgWatching (step_id : string) (callback_arg : option string)
| MsgUpdatedEvery (seconds : nat)
| MsgStepState (step_id observed : string)
| MsgCallbackArgInvalid (valid : list string)
| MsgLogNotFound (step_id cluster_id : string).

Inductive Event : Type :=
| EPrint (m : Message)
| ESleep (seconds : nat)
| ESend (s : string)
| ERecv (s : string)
| ECloseTx
| EStart (p : Proc)
| ECall (c : Callable)
| EDescribeStep (cluster_id step_id : string).

(** The fields of a [ClusterManager] set by [__init__] and never
    reassigned. *)
Record Self : Type := mkSelf {
  log_uri : option string;
  _poll_time : nat;
  ec2_key_name : option string
}.

Definition __init__ (log_uri name : option string) : Self :=
  mkSelf log_uri 60 name.

(** What changes while the methods run: the number of [describe_step]
    calls made, the states in flight on the pipe of [__init__], whether
    its send side was closed, the [KeepJobFlowAliveWhenNoSteps] entry of
    [instance_config], and everything done so far, oldest first. *)
Record World : Type := mkWorld {
  queries : nat;
  pipe : list string;
  tx_closed : bool;
  keep_alive : bool;
  trace : list Event
}.

Definition fresh : World := mkWorld 0 [] false false [].

(** *** Effects *)

Definition M (A : Type) : Type := World -> Outcome A * World.

Definition ret {A : Type} (a : A) : M A := fun w => (Ok a, w).

Definition bind {A B : Type} (m : M A) (k : A -> M B) : M B :=
  fun w =>
    match m w with
    | (Ok a, w') => k a w'
    | (Raise e, w') => (Raise e, w')
    | (Blocked, w') => (Blocked, w')
    | (OutOfFuel, w') => (OutOfFuel, w')
    end.

Definition lift {A : Type} (o : Outcome A) : M A := fun w => (o, w).

Definition raise {A : Type} (e : exn) : M A := lift (Raise e).

Definition emit (e : Event) : M unit :=
  fun w => (Ok tt, mkWorld (queries w) (pipe w) (tx_closed w) (keep_alive w)
                           (trace w ++ [e])).

Definition print (m : Message) : M unit := emit (EPrint m).
Definition sleep (seconds : nat) : M unit := emit (ESleep seconds).

Notation "x <- m ;; k" := (bind m (fun x => k))
  (at level 61, m at next level, right associativity).
Notation "m ;;; k" := (bind m (fun _ => k))
  (at level 61, right associativity).

(** [self._rx_poll.recv()]: the oldest state in flight; on an empty pipe
    an [EOFError] once the send side is closed, and a wait without end
    while it is open. *)
Definition recv : M string :=
  fun w =>
    match pipe w with
    | s :: rest =>
        (Ok s, mkWorld (queries w) rest (tx_closed w) (keep_alive w)
                       (trace w ++ [ERecv s]))
    | [] => if tx_closed w then (Raise EOFError, w) else (Blocked, w)
    end.

(** [self._tx_poll.send(s)] *)
Definition send (s : string) : M unit :=
  fun w =>
    if tx_closed w then (Raise (OSError "handle is closed"), w)
    else (Ok tt, mkWorld (queries w) (pipe w ++ [s]) (tx_closed w)
                         (keep_alive w) (trace w ++ [ESend s])).

(** [self._tx_poll.close()] *)
Definition close_tx : M unit :=
  fun w => (Ok tt, mkWorld (queries w) (pipe w) true (keep_alive w)
                           (trace w ++ [ECloseTx])).

(** [self.instance_config["KeepJobFlowAliveWhenNoSteps"] = b] *)
Definition set_keep_alive (b : bool) : M unit :=
  fun w => (Ok tt, mkWorld (queries w) (pipe w) (tx_closed w) b (trace w)).

(** [callback()]: calling [None] is a [TypeError]; a callback is taken
    to return, and the event records that it was called. *)
Definition call (callback : option Callable) : M unit :=
  match callback with
  | Some c => emit (ECall c)
  | None => raise TypeError
  end.

(** [x in l] for a list of strings *)
Definition in_list (x : string) (l : list string) : bool :=
  existsb (String.eqb x) l.

(** [x in l] where [x] may be [None] *)
Definition opt_in_list (x : option string) (l : list string) : bool :=
  match x with
  | Some s => in_list s l
  | None => false
  end.

(** [s != callback_arg], [s] a string *)
Definition differs (s : string) (callback_arg : option string) : bool :=
  match callback_arg with
  | Some t => negb (String.eqb s t)
  | None => true
  end.

(** [str.format] of a value that may be [None] *)
Definition format_opt (x : option string) : string :=
  match x with
  | Some s => s
  | None => "None"
  end.

(** *** A [dict] from cluster ids to lists of step ids, in insertion
    order *)

Definition dict : Type := list (string * list string).

Fixpoint dict_get (d : dict) (k : string) : option (list string) :=
  match d with
  | [] => None
  | (k', v) :: d' => if String.eqb k k' then Some v else dict_get d' k
  end.

(** [d[k] = v] *)
Fixpoint dict_set (d : dict) (k : string) (v : list string) : dict :=
  match d with
  | [] => [(k, v)]
  | (k', v') :: d' =>
      if String.eqb k k' then (k', v) :: d' else (k', v') :: dict_set d' k v
  end.

(** [d[k].append(x)] *)
Definition dict_append (d : dict) (k x : string) : Outcome dict :=
  match dict_get d k with
  | Some v => Ok (dict_set d k (v ++ [x])%list)
  | None => Raise (KeyError k)
  end.

(** [for x in xs: d[k].append(x)] *)
Fixpoint dict_append_all (d : dict) (k : string) (xs : list string)
  : Outcome dict :=
  match xs with
  | [] => Ok d
  | x :: xs' => obind (dict_append d k x) (fun d' => dict_append_all d' k xs')
  end.

(** The local lists of the methods. *)
Definition _poll_shutdown_states : list string :=
  ["COMPLETED"; "CANCELLED"; "FAILED"; "INTERRUPTED"].

Definition report_step_shutdown_states : list string :=
  ["COMPLETED"; "CANCELLED"; "FAILED"; "INTERRUPTED"].

Definition valid_states : list string :=
  ["PENDING"; "CANCEL_PENDING"; "RUNNING"; "COMPLETED"; "CANCELLED";
   "FAILED"; "INTERRUPTED"].

(** [if not logfile_key.endswith("stderr.gz"): logfile_key += "stderr.gz"] *)
Definition with_log_suffix (logfile_key : string) : string :=
  if negb (PyStr.endswith logfile_key "stderr.gz")
  then logfile_key ++ "stderr.gz"
  else logfile_key.

(** Lines 306 to 308 of [step_status]: [logfile_bucket] and
    [logfile_key] as split off [logfile_path]. *)
Definition raw_log_location (logfile_path : string)
  : Outcome (string * string) :=
  obind (PyStr.group (PyStr.re_match_s3 logfile_path)) (fun logfile_re =>
  obind (PyStr.split logfile_re "s3://") (fun parts =>
  obind (PyStr.index parts 1) (fun b =>
  let logfile_bucket := PyStr.strip PyStr.slash b in
  obind (PyStr.split logfile_path logfile_re) (fun pieces =>
  obind (PyStr.index pieces 1) (fun logfile_key =>
  Ok (logfile_bucket, logfile_key)))))).

(** Lines 306 to 310: the bucket and the key the log is fetched from. *)
Definition log_location (logfile_path : string) : Outcome (string * string) :=
  obind (raw_log_location logfile_path) (fun loc =>
  Ok (fst loc, with_log_suffix (snd loc))).

Section Methods.

Variable env : Env.
Variable self : Self.

(** [self._client.describe_step(ClusterId=..., StepId=...)] *)
Definition client_describe_step (cluster_id step_id : string)
  : M StepResponse :=
  fun w =>
    (Ok (describe_step env (queries w) cluster_id step_id),
     mkWorld (S (queries w)) (pipe w) (tx_closed w) (keep_alive w)
             (trace w ++ [EDescribeStep cluster_id step_id])).

(** The [try] of [step_status]: fetch, decompress and decode; only
    [NoSuchKey] is caught. *)
Definition fetch_log (step_id cluster_id logfile_bucket logfile_key : string)
  : M (option string) :=
  match obind (get_object env logfile_bucket logfile_key)
              (decompress_decode env) with
  | Ok text => ret (Some text)
  | Raise NoSuchKey =>
      print (MsgLogNotFound step_id cluster_id) ;;; ret None
  | Raise e => raise e
  | Blocked => lift Blocked
  | OutOfFuel => lift OutOfFuel
  end.

Definition step_status (step_id cluster_id : string)
  : M (StatusRecord * option string) :=
  response <- client_describe_step cluster_id step_id ;;
  let output :=
    mkStatusRecord (Name response) (Args response)
                   (ActionOnFailure response) (State response) None in
  match Failure response with
  | None => ret (output, None)
  | Some details =>
      let reason :=
        match Reason details with
        | Some r => r
        | None => "Unknown"
        end in
      logfile_path <-
        match LogFile details with
        | Some l => ret l
        | None => raise (KeyError "LogFile")
        end ;;
      let output :=
        mkStatusRecord (name output) (parameters output)
                       (failure_mode output) (state output)
                       (Some (mkFailureOutput reason logfile_path)) in
      loc <- lift (log_location logfile_path) ;;
      err <- fetch_log step_id cluster_id (fst loc) (snd loc) ;;
      ret (output, err)
  end.

(** [_poll]; [fuel] bounds the number of turns of the [while]. *)
Fixpoint _poll (fuel : nat) (step_id cluster_id : string) : M unit :=
  match fuel with
  | 0 => lift OutOfFuel
  | S fuel' =>
      observed <- step_status step_id cluster_id ;;
      if negb (in_list (state (fst observed)) _poll_shutdown_states)
      then
        again <- step_status step_id cluster_id ;;
        send (state (fst again)) ;;;
        sleep (_poll_time self) ;;;
        _poll fuel' step_id cluster_id
      else
        print (MsgStepShutdown step_id cluster_id) ;;;
        close_tx
  end.

(** [_listener]; [fuel] bounds the number of turns of the [while]. *)
Fixpoint _listener (fuel : nat) (callback : option Callable)
         (callback_arg : option string) : M unit :=
  match fuel with
  | 0 => lift OutOfFuel
  | S fuel' =>
      s <- recv ;;
      if differs s callback_arg
      then
        shown <- recv ;;
        print (MsgWaiting shown callback_arg) ;;;
        _listener fuel' callback callback_arg
      else call callback
  end.

(** [report_step]; [fuel] bounds the number of turns of the [while]. *)
Fixpoint report_step (fuel : nat) (step_id cluster_id : string) : M string :=
  match fuel with
  | 0 => lift OutOfFuel
  | S fuel' =>
      observed <- step_status step_id cluster_id ;;
      if negb (in_list (state (fst observed)) report_step_shutdown_states)
      then
        sleep (_poll_time self) ;;;
        report_step fuel' step_id cluster_id
      else
        final <- step_status step_id cluster_id ;;
        ret (state (fst final))
  end.

(** [watch_step]; the result of the inner block says whether control
    reaches the last two lines of the method. *)
Definition watch_step (step_id cluster_id : string)
           (callback : option Callable) (callback_arg : option string)
  : M unit :=
  emit (EStart (PollProc step_id cluster_id)) ;;;
  print (MsgWatching step_id callback_arg) ;;;
  print (MsgUpdatedEvery (_poll_time self)) ;;;
  falls_through <-
    match callback with
    | None =>
        s <- recv ;;
        print (MsgStepState step_id s) ;;;
        ret true
    | Some _ =>
        if negb (opt_in_list callback_arg valid_states)
        then print (MsgCallbackArgInvalid valid_states) ;;; ret false
        else ret true
    end ;;
  if falls_through
  then emit (EStart (ListenerProc callback callback_arg))
  else ret tt.

(** What a started process runs. *)
Definition target (fuel : nat) (p : Proc) : M unit :=
  match p with
  | PollProc step_id cluster_id => _poll fuel step_id cluster_id
  | ListenerProc callback callback_arg => _listener fuel callback callback_arg
  end.

(** [self._client.run_job_flow(...)] with the arguments that vary. *)
Definition client_run_job_flow (flow_name : string) (steps : list StepSpec)
  : M JobFlowResponse :=
  fun w =>
    (Ok (run_job_flow env
           (mkJobFlowRequest flow_name (keep_alive w) (ec2_key_name self)
                             (log_uri self) steps)), w).

Definition launch_cluster (name : string) : M string :=
  set_keep_alive true ;;;
  response <- client_run_job_flow name [] ;;
  match JobFlowId response with
  | Some id => ret id
  | None => print (MsgJobFlowIdMissing response) ;;; ret ""
  end.

(** The step built for one [(class, args)] pair. *)
Definition job_step (assembly_path : string) (pair : string * list string)
  : StepSpec :=
  let arg_list :=
    (["spark-submit"; "--conf"; "spark.driver.maxResultSize=4g";
      "--packages"; "org.apache.spark:spark-avro_2.11:2.4.4";
      "--deploy-mode"; "cluster"; "--master"; "yarn"; "--class";
      fst pair; assembly_path] ++ snd pair)%list in
  mkStepSpec (PyStr.drop 1 (snd (splitext env (fst pair))))
             "TERMINATE_CLUSTER" "command-runner.jar" arg_list.

Definition launch_cluster_with_jobs (assembly_path : string)
           (class_and_args : list (string * list string))
           (cluster_name : option string) : M dict :=
  let steps := map (job_step assembly_path) class_and_args in
  set_keep_alive false ;;;
  cluster_response <-
    client_run_job_flow (format_opt cluster_name ++ "-m2x") steps ;;
  found <-
    match JobFlowId cluster_response with
    | Some id => ret (id, dict_set [] id [])
    | None => print (MsgJobFlowIdMissing cluster_response) ;;; ret ("", [])
    end ;;
  let cluster_id := fst found in
  step_ids <- lift (list_steps env cluster_id) ;;
  lift (dict_append_all (snd found) cluster_id step_ids).

End Methods.

(** *** Readings of a trace *)

Fixpoint sent (t : list Event) : list string :=
  match t with
  | [] => []
  | ESend s :: t' => s :: sent t'
  | _ :: t' => sent t'
  end.

Fixpoint received (t : list Event) : list string :=
  match t with
  | [] => []
  | ERecv s :: t' => s :: received t'
  | _ :: t' => received t'
  end.

Fixpoint started (t : list Event) : list Proc :=
  match t with
  | [] => []
  | EStart p :: t' => p :: started t'
  | _ :: t' => started t'
  end.

Fixpoint calls (t : list Event) : nat :=
  match t with
  | [] => 0
  | ECall _ :: t' => S (calls t')
  | _ :: t' => calls t'
  end.

Fixpoint slept (t : list Event) : list nat :=
  match t with
  | [] => []
  | ESleep n :: t' => n :: slept t'
  | _ :: t' => slept t'
  end.

(** What the [k]-th status query of a process yields. *)
Definition observe (env : Env) (step_id cluster_id : string) (k : nat)
  : Outcome (StatusRecord * option string) :=
  fst (step_status env step_id cluster_id (mkWorld k [] false false [])).

(** The events a status query can leave besides the query itself. *)
Definition quiet (notice : list Event) (step_id cluster_id : string) : Prop :=
  notice = [] \/ notice = [EPrint (MsgLogNotFound step_id cluster_id)].

End ClusterManager.

(** ** Scenarios the properties are tried on *)

Module Scenario.
Import ClusterManager.

Definition answer (st : string) (details : option FailureDetails)
  : StepResponse :=
  mkStepResponse "job" ["--in"; "s3://data/in"] "CONTINUE" st details.

(** A service that answers each status query after its number, a store
    with one answer for every object, payloads that decompress to
    themselves, a launch answer and a step listing. *)
Definition service (states : nat -> StepResponse) (object : Outcome string)
           (launched : option string) (listed : Outcome (list string)) : Env :=
  mkEnv (fun n _ _ => states n) (fun _ _ => object) (fun body => Ok body)
        (fun _ => mkJobFlowResponse launched) (fun _ => listed)
        (fun p => (p, "")).

Definition manager : Self := __init__ (Some "s3://logs/") None.


(** A step completed from the first query on. *)
Definition already_completed (n : nat) : StepResponse :=
  answer "COMPLETED" None.

(** A failed step whose log lies under a prefix without file name. *)
Definition failed_with_log (n : nat) : StepResponse :=
  answer "FAILED"
         (Some (mkFailureDetails None (Some "s3://logs/j-1/steps/s-1/"))).

(** A failed step whose failure details name no log file. *)
Definition failed_without_log (n : nat) : StepResponse :=
  answer "FAILED" (Some (mkFailureDetails (Some "boom") None)).

Definition callback : Callable := Fn "notify".

(** A world in which the given states are in flight on the pipe. *)
Definition in_flight (states : list string) (closed : bool) : World :=
  mkWorld 0 states closed false [].

End Scenario.

(** ** s3_manager.py: the [Session] class *)

Module S3Session.
Import S3Manager.

(** The [Key] argument of a client call: a string, or the list literal
    that [path_exists] passes. *)
Inductive KeyArg : Type :=
| KeyStr (k : string)
| KeyList (l : list string).

(** The S3 client of a session and [bytes.decode("unicode-escape")].
    [list_objects_v2] yields the keys under [Contents], or [None] when
    the answer has no such entry. *)
Record Client : Type := mkClient {
  get_object : string -> KeyArg -> Outcome string;
  list_objects_v2 : string -> string -> Outcome (option (list string));
  decode : string -> Outcome string
}.

(** The requests that change the store, and the lines logged. *)
Inductive Action : Type :=
| DeleteObject (bucket key : string)
| DeleteObjects (bucket : string) (keys : list string)
| PutObject (bucket key : string)
| LogError (path : string).

(** The fields of a session: [self.error], the text of [self.buffer],
    and what the session has done to the store and the log, oldest
    first. *)
Record Session : Type := mkSession {
  error : option exn;
  buffer : string;
  done : list Action
}.

(** [Session()] *)
Definition new : Session := mkSession None "" [].

Definition SM (A : Type) : Type := Session -> Outcome A * Session.

Definition sret {A : Type} (a : A) : SM A := fun s => (Ok a, s).

Definition sbind {A B : Type} (m : SM A) (k : A -> SM B) : SM B :=
  fun s =>
    match m s with
    | (Ok a, s') => k a s'
    | (Raise e, s') => (Raise e, s')
    | (Blocked, s') => (Blocked, s')
    | (OutOfFuel, s') => (OutOfFuel, s')
    end.

Definition slift {A : Type} (o : Outcome A) : SM A := fun s => (o, s).

Definition act (a : Action) : SM unit :=
  fun s => (Ok tt, mkSession (error s) (buffer s) (done s ++ [a])).

(** [self.error = err] *)
Definition set_error (e : exn) : SM unit :=
  fun s => (Ok tt, mkSession (Some e) (buffer s) (done s)).

Notation "x <- m ;; k" := (sbind m (fun x => k))
  (at level 61, m at next level, right associativity).
Notation "m ;;; k" := (sbind m (fun _ => k))
  (at level 61, right associativity).

(** [err.response["Error"]["Code"]] of an exception caught by
    [except ClientError]; [None] for an exception of another class. *)
Definition client_error_code (e : exn) : option string :=
  match e with
  | NoSuchKey => Some "NoSuchKey"
  | ClientError code => Some code
  | _ => None
  end.

(** The handler shared by [get] and [list]:
    self.error = err; if code == "NoSuchKey": log.error(...) *)
Definition note_error (path : string) (e : exn) (code : string) : SM unit :=
  set_error e ;;;
  if String.eqb code "NoSuchKey" then act (LogError path) else sret tt.

(** [clear_buffer] *)
Definition clear_buffer : SM unit :=
  fun s => (Ok tt, mkSession (error s) "" (done s)).

(** [list(path)] with the builtin [list]: the characters of the path,
    each a string of length one. *)
Fixpoint characters (s : string) : list string :=
  match s with
  | EmptyString => []
  | String c s' => String c EmptyString :: characters s'
  end.

(** [list(map(lambda p: parse_path(p)["key"], l))] *)
Fixpoint keys_of (l : list string) : Outcome (list string) :=
  match l with
  | [] => Ok []
  | p :: l' =>
      obind (parse_path p) (fun parsed =>
      obind (keys_of l') (fun ks => Ok (key parsed :: ks)))
  end.

Section Methods.

Variable client : Client.

Definition get (path : string) : SM (option string) :=
  parsed_path <- slift (parse_path path) ;;
  match obind (get_object client (bucket parsed_path)
                          (KeyStr (key parsed_path)))
              (decode client) with
  | Ok text => sret (Some text)
  | Raise e =>
      match client_error_code e with
      | Some code => note_error path e code ;;; sret None
      | None => slift (Raise e)
      end
  | Blocked => slift Blocked
  | OutOfFuel => slift OutOfFuel
  end.

(** [Session.list] *)
Definition list_ (path : string) : SM (list string) :=
  parsed_path <- slift (parse_path path) ;;
  match list_objects_v2 client (bucket parsed_path) (key parsed_path) with
  | Ok (Some keys) =>
      sret (map (fun k => "s3://" ++ bucket parsed_path ++ "/" ++ k) keys)
  | Ok None => slift (Raise (KeyError "Contents"))
  | Raise e =>
      match client_error_code e with
      | Some code => note_error path e code ;;; sret []
      | None => slift (Raise e)
      end
  | Blocked => slift Blocked
  | OutOfFuel => slift OutOfFuel
  end.

Definition delete (path : string) : SM unit :=
  parsed_path <- slift (parse_path path) ;;
  let del_list := characters path in
  del_dict <- slift (keys_of del_list) ;;
  match del_list with
  | [] => act (DeleteObject (bucket parsed_path) (key parsed_path))
  | _ :: _ => act (DeleteObjects (bucket parsed_path) del_dict)
  end.

(** [for k in copy_list: put_object(Bucket=bucket, Key=k)] *)
Fixpoint put_all (bucket : string) (keys : list string) : SM unit :=
  match keys with
  | [] => sret tt
  | k :: keys' => act (PutObject bucket k) ;;; put_all bucket keys'
  end.

Definition move (origin destination : string) : SM unit :=
  input_path <- slift (parse_path origin) ;;
  let input_list := characters origin in
  output_path <- slift (parse_path destination) ;;
  copy_dict <- slift (keys_of input_list) ;;
  match input_list with
  | [] =>
      act (PutObject (bucket output_path) (key input_path)) ;;;
      act (DeleteObject (bucket input_path) (key input_path))
  | _ :: _ =>
      copy_list <- slift (keys_of input_list) ;;
      put_all (bucket output_path) copy_list ;;;
      act (DeleteObjects (bucket input_path) copy_dict)
  end.

Definition copy (origin destination : string) : SM unit :=
  input_path <- slift (parse_path origin) ;;
  let input_list := characters origin in
  output_path <- slift (parse_path destination) ;;
  copy_dict <- slift (keys_of input_list) ;;
  match input_list with
  | [] => act (PutObject (bucket output_path) (key input_path))
  | _ :: _ =>
      copy_list <- slift (keys_of input_list) ;;
      put_all (bucket output_path) copy_list
  end.

Definition path_exists (path : string) : SM bool :=
  parsed <- slift (parse_path path) ;;
  match get_object client (bucket parsed) (KeyList ["key"]) with
  | Ok _ => sret true
  | Raise e =>
      match client_error_code e with
      | Some code =>
          set_error e ;;;
          if String.eqb code "NoSuchKey" then sret false else sret true
      | None => slift (Raise e)
      end
  | Blocked => slift Blocked
  | OutOfFuel => slift OutOfFuel
  end.

End Methods.

End S3Session.

(** ** Stores the session is tried on *)

Module SessionScenario.
Import S3Session.

(** A store that answers every read and every listing alike and whose
    payloads decode to themselves. *)
Definition store (object : Outcome string)
           (listing : Outcome (option (list string))) : Client :=
  mkClient (fun _ _ => object) (fun _ _ => listing) (fun body => Ok body).

(** A store that holds one object, under a string key; a key that is no
    string is refused by the client's check of its arguments, with an
    exception that is no [ClientError]. *)
Definition holds (bucket key body : string) : Client :=
  mkClient
    (fun b k =>
       match k with
       | KeyStr k' =>
           if String.eqb b bucket && String.eqb k' key
           then Ok body else Raise NoSuchKey
       | KeyList _ => Raise TypeError
       end)
    (fun _ _ => Ok (Some [key]))
    (fun body => Ok body).

End SessionScenario.

(** ** cluster_manager.py: [cluster_status] and [run_steps] *)

Module ClusterOps.
Import ClusterManager.

(** [response["Cluster"]["Status"]["StateChangeReason"]] *)
Record StateChangeReason : Type := mkStateChangeReason {
  Message : option string
}.

(** [response["Cluster"]] of [describe_cluster], with the keys
    [cluster_status] reads. *)
Record ClusterResponse : Type := mkClusterResponse {
  ClusterName : string;
  ClusterState : string;
  StateChange : option StateChangeReason
}.

(** One element of [steps_response["Steps"]]. *)
Record StepSummary : Type := mkStepSummary {
  Id : string;
  SummaryName : string;
  SummaryState : string
}.

(** The [output] dictionary of [cluster_status]. *)
Record ClusterStatus : Type := mkClusterStatus {
  cluster_name : string;
  cluster_state : string;
  steps : list StepSummary
}.

Definition terminated_states : list string :=
  ["TERMINATING"; "TERMINATED"; "TERMINATED_WITH_ERRORS"].

(** [for s in steps: steps_list.append(s)], from [steps_list]. *)
Fixpoint append_each (steps_list steps : list StepSummary) : list StepSummary :=
  match steps with
  | [] => steps_list
  | s :: steps' => append_each (steps_list ++ [s]) steps'
  end.

(** [response["Cluster"]["Status"]["StateChangeReason"]["Message"]] *)
Definition state_change_message (response : ClusterResponse) : Outcome string :=
  match StateChange response with
  | None => Raise (KeyError "StateChangeReason")
  | Some r =>
      match Message r with
      | None => Raise (KeyError "Message")
      | Some m => Ok m
      end
  end.

Definition cluster_status (describe_cluster : string -> ClusterResponse)
           (list_cluster_steps : string -> list StepSummary)
           (cluster_id : string) : Outcome (ClusterStatus * option string) :=
  let response := describe_cluster cluster_id in
  let steps_list := append_each [] (list_cluster_steps cluster_id) in
  let output :=
    mkClusterStatus (ClusterName response) (ClusterState response) steps_list in
  if in_list (cluster_state output) terminated_states
  then obind (state_change_message response) (fun termination_cause =>
       Ok (output, Some termination_cause))
  else Ok (output, None).

(** The [class_and_args] argument of [run_steps]: a list of jobs, or a
    value of another type, such as one job given without the brackets. *)
Inductive StepsArg : Type :=
| JobList (jobs : list (string * list string))
| NotAList.

(** What [run_steps] does besides returning. *)
Inductive RunEvent : Type :=
| PrintStepsMustBeList
| AddJobFlowSteps (cluster_id : string) (steps : list StepSpec).

(** The step [run_steps] builds for one [(class, args)] pair. *)
Definition run_step (splitext : string -> string * string)
           (assembly_path failure_op : string) (pair : string * list string)
  : StepSpec :=
  let arg_list :=
    (["spark-submit"; "--packages"; "org.apache.spark:spark-avro_2.11:2.4.4";
      "--deploy-mode"; "cluster"; "--master"; "yarn"; "--class";
      fst pair; assembly_path] ++ snd pair)%list in
  mkStepSpec (PyStr.drop 1 (snd (splitext (fst pair))))
             failure_op "command-runner.jar" arg_list.

(** [run_steps]: the events, and the returned list of step ids;
    [add_job_flow_steps] gives the [StepIds] of the answer. *)
Definition run_steps (splitext : string -> string * string)
           (add_job_flow_steps : string -> list StepSpec -> list string)
           (assembly_path cluster_id : string) (class_and_args : StepsArg)
           (terminate_on_failure : bool) : list RunEvent * list string :=
  match class_and_args with
  | NotAList => ([PrintStepsMustBeList], [])
  | JobList jobs =>
      let failure_op :=
        if negb terminate_on_failure then "CONTINUE" else "TERMINATE_CLUSTER" in
      let steps := map (run_step splitext assembly_path failure_op) jobs in
      ([AddJobFlowSteps cluster_id steps],
       ([] ++ add_job_flow_steps cluster_id steps)%list)
  end.

End ClusterOps.

(** ** Readings of what the poller asks and publishes *)

Module PollTrace.
Import ClusterManager.

(** The states of the second answers of [k] turns of the poller that
    start at query [q]: the answers to the queries [q + 1], [q + 3],
    and so on. *)
Fixpoint republished (env : Env) (step_id cluster_id : string) (q k : nat)
  : list string :=
  match k with
  | 0 => []
  | S k' =>
      State (describe_step env (S q) cluster_id step_id)
      :: republished env step_id cluster_id (S (S q)) k'
  end.

(** The states of the first answers of these turns: to [q], [q + 2],
    and so on. *)
Fixpoint tested (env : Env) (step_id cluster_id : string) (q k : nat)
  : list string :=
  match k with
  | 0 => []
  | S k' =>
      State (describe_step env q cluster_id step_id)
      :: tested env step_id cluster_id (S (S q)) k'
  end.

(** No state of the list is the target. *)
Definition no_match (states : list string) (callback_arg : option string)
  : bool :=
  forallb (fun s => differs s callback_arg) states.

(** Two answers a turn that agree, until the step is completed. *)
Definition steady (turns : nat) (n : nat) : StepResponse :=
  if Nat.ltb n (2 * turns)
  then Scenario.answer "RUNNING" None
  else Scenario.answer "COMPLETED" None.

End PollTrace.

(** ** s3_transform.py *)

Module S3Transform.
Import S3Manager.

(** The names an object of class [Session] answers to: the fields set
    by [__init__] and the methods of the class. *)
Definition session_attributes : list string :=
  ["client"; "buffer"; "error"; "clear_buffer"; "get"; "list"; "delete";
   "move"; "copy"; "path_exists"].

(** [s3mgr.<name>]: an [AttributeError] for a name the session does not
    have. *)
Definition getattr (name : string) : Outcome unit :=
  if ClusterManager.in_list name session_attributes
  then Ok tt else Raise AttributeError.

(** A [put_object] request: bucket, key and body. *)
Record Put : Type := mkPut {
  put_bucket : string;
  put_key : string;
  put_body : string
}.

Section Functions.

(** Data frames and JSON values, and what pandas, json and the store
    do: the bytes of an object, their decoding, the readers and the
    writers (with the keyword arguments they are given), [json.loads]
    and [json.dumps]. *)
Variable Frame : Type.
Variable Json : Type.
Variable get_object_body : string -> string -> Outcome string.
Variable decode_utf8 : string -> Outcome string.
Variable read_csv : string -> Outcome Frame.
Variable read_json : string -> Outcome Frame.
Variable to_csv : Frame -> Outcome string.
Variable to_json : Frame -> Outcome string.
Variable json_loads : string -> Outcome Json.
Variable json_dumps : Json -> Outcome string.

(** [csv_to_df]: the method [s3mgr._load_into_buffer] is looked up
    before its argument, the fetch, is evaluated. *)
Definition csv_to_df (path : string) : Outcome Frame :=
  obind (parse_path path) (fun parsed =>
  obind (getattr "_load_into_buffer") (fun _ =>
  obind (get_object_body (bucket parsed) (key parsed)) (fun body =>
  obind (decode_utf8 body) (fun text =>
  read_csv text)))).

Definition df_to_csv (frame : Frame) (path : string) : Outcome Put :=
  obind (parse_path path) (fun parsed =>
  obind (getattr "_clear_buffer") (fun _ =>
  obind (to_csv frame) (fun text =>
  Ok (mkPut (bucket parsed) (key parsed) text)))).

(** [json_to_df]: the object is fetched, decoded and given to
    [json.loads] first; the lookup of [s3mgr._load_into_buffer] comes
    with the next statement, before its argument [json.dumps(data)]. *)
Definition json_to_df (path : string) : Outcome Frame :=
  obind (parse_path path) (fun parsed =>
  obind (get_object_body (bucket parsed) (key parsed)) (fun body =>
  obind (decode_utf8 body) (fun text =>
  obind (json_loads text) (fun data =>
  obind (getattr "_load_into_buffer") (fun _ =>
  obind (json_dumps data) (fun dumped =>
  read_json dumped)))))).

Definition df_to_json (frame : Frame) (path : string) : Outcome Put :=
  obind (parse_path path) (fun parsed =>
  obind (getattr "_clear_buffer") (fun _ =>
  obind (to_json frame) (fun text =>
  Ok (mkPut (bucket parsed) (key parsed) text)))).

End Functions.

End S3Transform.

(** * Properties *)

(** ** Strings *)

Module PyStrFacts.
Import PyStr.

Lemma length_app (a b : string) :
  String.length (a ++ b) = String.length a + String.length b.
Proof. induction a as [|c a IH]; simpl; [reflexivity | now rewrite IH]. Qed.

Lemma app_assoc (a b c : string) : (a ++ b) ++ c = a ++ (b ++ c).
Proof. induction a as [|x a IH]; simpl; [reflexivity | now rewrite IH]. Qed.

Lemma app_empty_r (a : string) : a ++ "" = a.
Proof. induction a as [|x a IH]; simpl; [reflexivity | now rewrite IH]. Qed.

Lemma drop_app (a b : string) : drop (String.length a) (a ++ b) = b.
Proof. induction a as [|c a IH]; simpl; [now destruct b | exact IH]. Qed.

Lemma drop_empty (n : nat) : drop n "" = "".
Proof. now destruct n. Qed.

Lemma drop_drop (n m : nat) (s : string) : drop n (drop m s) = drop (m + n) s.
Proof.
  revert s; induction m as [|m IH]; intros s; simpl.
  - reflexivity.
  - destruct s as [|c s]; [apply drop_empty | apply IH].
Qed.

Lemma prefix_app (a b : string) : String.prefix a (a ++ b) = true.
Proof.
  induction a as [|c a IH]; simpl.
  - now destruct b.
  - destruct (ascii_dec c c) as [_|N]; [exact IH | now elim N].
Qed.

Lemma prefix_split (a s : string) :
  String.prefix a s = true -> exists r, s = a ++ r.
Proof.
  revert s; induction a as [|c a IH]; intros s H.
  - now exists s.
  - destruct s as [|d s]; simpl in H; [discriminate|].
    destruct (ascii_dec c d) as [->|_]; [|discriminate].
    destruct (IH _ H) as [r ->]. now exists r.
Qed.

Lemma endswith_app (k suffix : string) : endswith (k ++ suffix) suffix = true.
Proof.
  unfold endswith. rewrite length_app.
  replace (String.length k + String.length suffix - String.length suffix)
    with (String.length k) by lia.
  rewrite drop_app, String.eqb_refl, andb_true_r.
  apply Nat.leb_le; lia.
Qed.

Lemma endswith_drop (s suffix : string) :
  endswith s suffix = true ->
  String.length suffix <= String.length s
  /\ drop (String.length s - String.length suffix) s = suffix.
Proof.
  unfold endswith. intros H. apply andb_true_iff in H as [L E].
  apply Nat.leb_le in L. apply String.eqb_eq in E. now split.
Qed.

(** A key that ends with a slash does not end with the log suffix. *)
Lemma endswith_slash_not_suffix (k : string) :
  endswith k "/" = true -> endswith k "stderr.gz" = false.
Proof.
  intros Hs. destruct (endswith k "stderr.gz") eqn:Hz; [|reflexivity].
  apply endswith_drop in Hs as [_ Ds].
  apply endswith_drop in Hz as [Lz Dz].
  simpl String.length in *.
  assert (E : drop 8 (drop (String.length k - 9) k) = "z")
    by (rewrite Dz; reflexivity).
  rewrite drop_drop in E.
  replace (String.length k - 9 + 8) with (String.length k - 1) in E by lia.
  rewrite Ds in E. discriminate.
Qed.

Lemma rev_onto_cons (piece : string) (c : ascii) (s : string) :
  rev_onto (String c piece) s = rev_onto piece (String c s).
Proof. reflexivity. Qed.

(** Passing over the rest of a matched separator. *)
Lemma split_scan_skip (sep a s piece : string) :
  split_scan sep (a ++ s) (String.length a) piece = split_scan sep s 0 piece
  \/ (s = "" /\ split_scan sep (a ++ s) (String.length a) piece
                = [rev_onto piece ""]).
Proof.
  induction a as [|c a IH]; simpl.
  - now left.
  - exact IH.
Qed.

Lemma split_scan_empty (sep piece : string) (n : nat) :
  split_scan sep "" n piece = [rev_onto piece ""].
Proof. reflexivity. Qed.

Lemma split_scan_skip_eq (sep a s piece : string) :
  split_scan sep (a ++ s) (String.length a) piece = split_scan sep s 0 piece.
Proof.
  destruct (split_scan_skip sep a s piece) as [H | [-> H]]; [exact H|].
  now rewrite H.
Qed.

(** Without an occurrence of the separator there is one piece. *)
Lemma split_scan_absent (sep s piece : string) :
  contains sep s = false ->
  split_scan sep s 0 piece = [rev_onto piece s].
Proof.
  revert piece; induction s as [|c s IH]; intros piece H.
  - reflexivity.
  - cbn [contains] in H. apply orb_false_iff in H as [Hp Hc].
    cbn [split_scan]. rewrite Hp. rewrite (IH _ Hc). reflexivity.
Qed.

(** A string that starts with the separator: an empty first piece, then
    the pieces of the rest. *)
Lemma split_scan_at_sep (c : ascii) (sep' s : string) :
  split_scan (String c sep') (String c sep' ++ s) 0 ""
  = "" :: split_scan (String c sep') s 0 "".
Proof.
  change (String c sep' ++ s) with (String c (sep' ++ s)).
  cbn [split_scan].
  change (String c (sep' ++ s)) with (String c sep' ++ s).
  rewrite prefix_app. cbn [rev_onto String.length].
  replace (S (String.length sep') - 1) with (String.length sep') by lia.
  now rewrite split_scan_skip_eq.
Qed.

Lemma lazy_dots_bucket (b k : string) :
  has_char slash b = false ->
  has_char newline b = false ->
  lazy_dots_then_slash (b ++ "/" ++ k) = Some (b ++ "/").
Proof.
  induction b as [|c b IH]; intros Hs Hn.
  - reflexivity.
  - cbn [has_char] in Hs, Hn.
    apply orb_false_iff in Hs as [Hs1 Hs2].
    apply orb_false_iff in Hn as [Hn1 Hn2].
    change (String c b ++ "/" ++ k) with (String c (b ++ "/" ++ k)).
    cbn [lazy_dots_then_slash]. rewrite Hs1, Hn1, (IH Hs2 Hn2). reflexivity.
Qed.

(** The text matched by the pattern, read back from a successful match. *)
Lemma lazy_dots_inv (s r : string) :
  lazy_dots_then_slash s = Some r ->
  exists b k, s = b ++ "/" ++ k /\ r = b ++ "/"
              /\ has_char slash b = false /\ has_char newline b = false.
Proof.
  revert r; induction s as [|c s IH]; intros r H; [discriminate|].
  cbn [lazy_dots_then_slash] in H.
  destruct (Ascii.eqb c slash) eqn:Es.
  - apply Ascii.eqb_eq in Es. subst c. inversion H; subst r.
    exists "", s. repeat split.
  - destruct (Ascii.eqb c newline) eqn:En; [discriminate|].
    destruct (lazy_dots_then_slash s) as [r'|] eqn:E; [|discriminate].
    inversion H; subst r.
    destruct (IH _ eq_refl) as (b & k & -> & -> & Hb1 & Hb2).
    exists (String c b), k. cbn [has_char]. rewrite Es, En, Hb1, Hb2.
    repeat split.
Qed.

Lemma re_match_s3_bucket (b k : string) :
  has_char slash b = false ->
  has_char newline b = false ->
  re_match_s3 ("s3://" ++ b ++ "/" ++ k) = Some ("s3://" ++ b ++ "/").
Proof.
  intros Hs Hn. unfold re_match_s3.
  rewrite prefix_app.
  change 5 with (String.length "s3://"). rewrite drop_app.
  now rewrite (lazy_dots_bucket b k Hs Hn).
Qed.

Lemma re_match_s3_inv (p r : string) :
  re_match_s3 p = Some r ->
  exists b k, p = "s3://" ++ b ++ "/" ++ k /\ r = "s3://" ++ b ++ "/"
              /\ has_char slash b = false /\ has_char newline b = false.
Proof.
  unfold re_match_s3. intros H.
  destruct (String.prefix "s3://" p) eqn:Hp; [|discriminate].
  destruct (prefix_split _ _ Hp) as [rest ->].
  change 5 with (String.length "s3://") in H. rewrite drop_app in H.
  destruct (lazy_dots_then_slash rest) as [m|] eqn:E; [|discriminate].
  inversion H; subst r.
  destruct (lazy_dots_inv _ _ E) as (b & k & -> & -> & Hb1 & Hb2).
  now exists b, k.
Qed.

(** The scheme does not occur in a bucket name followed by a slash. *)
Lemma scheme_absent (b : string) :
  has_char slash b = false -> contains "s3://" (b ++ "/") = false.
Proof.
  induction b as [|c b IH]; intros H.
  - reflexivity.
  - cbn [has_char] in H. apply orb_false_iff in H as [H1 H2].
    change (String c b ++ "/") with (String c (b ++ "/")).
    cbn [contains]. rewrite (IH H2), orb_false_r.
    destruct (String.prefix "s3://" (String c (b ++ "/"))) eqn:Hp;
      [|reflexivity].
    exfalso. apply prefix_split in Hp as [r Hr].
    destruct b as [|c1 [|c2 [|c3 [|c4 b]]]]; try discriminate Hr;
      cbn [has_char] in H2; cbn in Hr; inversion Hr; subst;
      cbn in H2; discriminate H2.
Qed.

Lemma rstrip_bucket (b : string) :
  has_char slash b = false -> rstrip slash (b ++ "/") = b.
Proof.
  induction b as [|c b IH]; intros H.
  - reflexivity.
  - cbn [has_char] in H. apply orb_false_iff in H as [H1 H2].
    change (String c b ++ "/") with (String c (b ++ "/")).
    cbn [rstrip]. rewrite (IH H2), H1. now destruct b.
Qed.

Lemma strip_bucket (b : string) :
  has_char slash b = false -> strip slash (b ++ "/") = b.
Proof.
  intros H. unfold strip. destruct b as [|c b].
  - reflexivity.
  - pose proof H as H'. cbn [has_char] in H'.
    apply orb_false_iff in H' as [H1 _].
    change (String c b ++ "/") with (String c (b ++ "/")).
    cbn [lstrip]. rewrite H1.
    change (String c (b ++ "/")) with (String c b ++ "/").
    now apply rstrip_bucket.
Qed.

End PyStrFacts.

(** ** parse_path *)

Module S3ManagerFacts.
Import PyStr PyStrFacts S3Manager.

(** Splitting a matched prefix on the scheme leaves the bucket name and
    its slash as the second piece. *)
Lemma split_regex_on_scheme (b : string) :
  has_char slash b = false ->
  split ("s3://" ++ b ++ "/") "s3://" = Ok [""; b ++ "/"].
Proof.
  intros H. unfold split.
  rewrite (split_scan_at_sep "s"%char "3://" (b ++ "/")).
  now rewrite (split_scan_absent _ _ "" (scheme_absent b H)).
Qed.

(** Splitting a path on its own matched prefix, when the prefix does not
    come back in the key. *)
Lemma split_path_on_regex (b k : string) :
  contains ("s3://" ++ b ++ "/") k = false ->
  split ("s3://" ++ b ++ "/" ++ k) ("s3://" ++ b ++ "/") = Ok [""; k].
Proof.
  intros H.
  replace ("s3://" ++ b ++ "/" ++ k) with (("s3://" ++ b ++ "/") ++ k)
    by (rewrite !app_assoc; reflexivity).
  remember ("s3://" ++ b ++ "/") as regex eqn:E.
  destruct regex as [|c sep']; [discriminate E|].
  unfold split. rewrite split_scan_at_sep.
  now rewrite (split_scan_absent _ _ "" H).
Qed.

(** A path whose key does not contain the text [s3://bucket/] again
    parses to its bucket and key, and the two rebuild the path. *)
Lemma parse_path_round_trip (b k : string) :
  has_char slash b = false ->
  has_char newline b = false ->
  contains ("s3://" ++ b ++ "/") k = false ->
  parse_path ("s3://" ++ b ++ "/" ++ k)
  = Ok (mkParsedPath ("s3://" ++ b ++ "/" ++ k) b k)
  /\ unparse (mkParsedPath ("s3://" ++ b ++ "/" ++ k) b k)
     = "s3://" ++ b ++ "/" ++ k.
Proof.
  intros Hs Hn Hk. split; [|reflexivity].
  unfold parse_path.
  rewrite (re_match_s3_bucket b k Hs Hn). cbn [group obind].
  rewrite (split_regex_on_scheme b Hs). cbn [obind index nth_error].
  rewrite (split_path_on_regex b k Hk). cbn [obind index nth_error].
  now rewrite (strip_bucket b Hs).
Qed.

Lemma parse_path_round_trip_example :
  parse_path "s3://some-bucket/a/b/c"
  = Ok (mkParsedPath "s3://some-bucket/a/b/c" "some-bucket" "a/b/c").
Proof.
  exact (proj1 (parse_path_round_trip "some-bucket" "a/b/c"
                  eq_refl eq_refl eq_refl)).
Qed.

(** The parse asserted by [test_parser]. *)
Lemma test_parser :
  parse_path "s3://some-bucket/some_path_a/some_path_b/some_destination"
  = Ok (mkParsedPath
          "s3://some-bucket/some_path_a/some_path_b/some_destination"
          "some-bucket" "some_path_a/some_path_b/some_destination").
Proof. reflexivity. Qed.

(** C6: [parse_path] does not give back bucket and key of every path
    [s3://bucket/key]: the examples of the specification parse as
    stated, also with an empty key, but a key in which the text
    [s3://bucket/] comes back is cut at that place, since
    [path.split(regex)[1]] is the piece between the first two
    occurrences; bucket and key then no longer rebuild the path. *)
Theorem parse_path_cuts_key_at_repeated_prefix :
  parse_path "s3://some-bucket/a/b/c"
  = Ok (mkParsedPath "s3://some-bucket/a/b/c" "some-bucket" "a/b/c")
  /\ parse_path "s3://some-bucket/"
     = Ok (mkParsedPath "s3://some-bucket/" "some-bucket" "")
  /\ parse_path "s3://b/x/s3://b/y"
     = Ok (mkParsedPath "s3://b/x/s3://b/y" "b" "x/")
  /\ unparse (mkParsedPath "s3://b/x/s3://b/y" "b" "x/")
     <> "s3://b/x/s3://b/y".
Proof.
  repeat split; try reflexivity.
  cbv. discriminate.
Qed.

End S3ManagerFacts.

(** ** ClusterManager *)

Module ClusterManagerFacts.
Import ClusterManager.

(** *** Readings of a trace and concatenation *)

Lemma sent_app (t u : list Event) : sent (t ++ u) = (sent t ++ sent u)%list.
Proof.
  induction t as [|e t IH]; [reflexivity|].
  destruct e; simpl; now rewrite IH.
Qed.

Lemma received_app (t u : list Event) :
  received (t ++ u) = (received t ++ received u)%list.
Proof.
  induction t as [|e t IH]; [reflexivity|].
  destruct e; simpl; now rewrite IH.
Qed.

Lemma slept_app (t u : list Event) :
  slept (t ++ u) = (slept t ++ slept u)%list.
Proof.
  induction t as [|e t IH]; [reflexivity|].
  destruct e; simpl; now rewrite IH.
Qed.

Lemma started_app (t u : list Event) :
  started (t ++ u) = (started t ++ started u)%list.
Proof.
  induction t as [|e t IH]; [reflexivity|].
  destruct e; simpl; now rewrite IH.
Qed.

Lemma calls_app (t u : list Event) : calls (t ++ u) = calls t + calls u.
Proof.
  induction t as [|e t IH]; [reflexivity|].
  destruct e; simpl; now rewrite IH.
Qed.

(** *** The status normaliser *)

(** A status query depends on the world through the number of queries
    made only; it counts itself, logs itself and at most the notice,
    and leaves the pipe alone. *)
Lemma step_status_frame (env : Env) (step_id cluster_id : string) (w : World) :
  exists notice,
    step_status env step_id cluster_id w
    = (observe env step_id cluster_id (queries w),
       mkWorld (S (queries w)) (pipe w) (tx_closed w) (keep_alive w)
               (trace w ++ EDescribeStep cluster_id step_id :: notice))
    /\ quiet notice step_id cluster_id.
Proof.
  unfold observe, step_status, client_describe_step, bind, quiet. cbn.
  destruct (Failure (describe_step env (queries w) cluster_id step_id))
    as [details|]; cbn.
  2:{ exists []. split; [reflexivity | now left]. }
  destruct (LogFile details) as [p|]; cbn.
  2:{ exists []. split; [reflexivity | now left]. }
  destruct (log_location p) as [[b k]| e | | ]; cbn;
    try (exists []; split; [reflexivity | now left]).
  unfold fetch_log.
  destruct (obind (get_object env b k) (decompress_decode env))
    as [text| e | | ]; cbn;
    try (exists []; split; [reflexivity | now left]).
  destruct e; cbn; try (exists []; split; [reflexivity | now left]).
  exists [EPrint (MsgLogNotFound step_id cluster_id)].
  split; [|now right]. now rewrite <- List.app_assoc.
Qed.

(** The state a successful status query reports is the one in the
    service's answer to that query. *)
Lemma observe_state (env : Env) (step_id cluster_id : string) (k : nat)
      (r : StatusRecord * option string) :
  observe env step_id cluster_id k = Ok r ->
  state (fst r) = State (describe_step env k cluster_id step_id).
Proof.
  unfold observe, step_status, client_describe_step, bind. cbn.
  destruct (Failure (describe_step env k cluster_id step_id))
    as [details|]; cbn.
  2:{ intros H; inversion H; reflexivity. }
  destruct (LogFile details) as [p|]; cbn; [|discriminate].
  destruct (log_location p) as [[b key]| e | | ]; cbn; try discriminate.
  unfold fetch_log.
  destruct (obind (get_object env b key) (decompress_decode env))
    as [text| e | | ]; cbn; try discriminate.
  - intros H; inversion H; reflexivity.
  - destruct e; cbn; try discriminate.
    intros H; inversion H; reflexivity.
Qed.

(** A step without failure details: the plain record, no diagnostic. *)
Lemma observe_plain (env : Env) (step_id cluster_id : string) (k : nat) :
  Failure (describe_step env k cluster_id step_id) = None ->
  observe env step_id cluster_id k
  = Ok (mkStatusRecord
          (Name (describe_step env k cluster_id step_id))
          (Args (describe_step env k cluster_id step_id))
          (ActionOnFailure (describe_step env k cluster_id step_id))
          (State (describe_step env k cluster_id step_id)) None, None).
Proof.
  intros H. unfold observe, step_status, client_describe_step, bind. cbn.
  now rewrite H.
Qed.

(** The status query of a step that carries failure details with a log
    file whose path parses: the record with the details, and the
    outcome of the fetch. *)
Lemma step_status_with_details (env : Env) (step_id cluster_id : string)
      (w : World) (details : FailureDetails) (p b k : string) :
  Failure (describe_step env (queries w) cluster_id step_id) = Some details ->
  LogFile details = Some p ->
  log_location p = Ok (b, k) ->
  step_status env step_id cluster_id w
  = bind (fetch_log env step_id cluster_id b k)
      (fun err =>
         ret (mkStatusRecord
                (Name (describe_step env (queries w) cluster_id step_id))
                (Args (describe_step env (queries w) cluster_id step_id))
                (ActionOnFailure
                   (describe_step env (queries w) cluster_id step_id))
                (State (describe_step env (queries w) cluster_id step_id))
                (Some (mkFailureOutput
                         (match Reason details with
                          | Some r => r
                          | None => "Unknown"
                          end) p)),
              err))
      (mkWorld (S (queries w)) (pipe w) (tx_closed w) (keep_alive w)
               (trace w ++ [EDescribeStep cluster_id step_id])).
Proof.
  intros HF HL Hloc.
  unfold step_status, client_describe_step. unfold bind at 1. cbn.
  rewrite HF. unfold bind at 1. rewrite HL. cbn [ret].
  unfold bind at 1. unfold lift. rewrite Hloc. reflexivity.
Qed.

(** C5: when the step carries failure details and the fetch of its log
    object reports that the key does not exist, [step_status] returns
    the record with the failure details and no diagnostic, and prints
    the notice and nothing else; any other exception of the fetch
    reaches the caller. *)
Theorem step_status_missing_log_is_not_an_error
        (env : Env) (step_id cluster_id : string) (w : World)
        (details : FailureDetails) (p b k : string) :
  Failure (describe_step env (queries w) cluster_id step_id) = Some details ->
  LogFile details = Some p ->
  log_location p = Ok (b, k) ->
  (get_object env b k = Raise NoSuchKey ->
   exists r,
     step_status env step_id cluster_id w
     = (Ok (r, None),
        mkWorld (S (queries w)) (pipe w) (tx_closed w) (keep_alive w)
                (trace w ++ [EDescribeStep cluster_id step_id;
                             EPrint (MsgLogNotFound step_id cluster_id)]))
     /\ state r = State (describe_step env (queries w) cluster_id step_id)
     /\ failure_details r
        = Some (mkFailureOutput
                  (match Reason details with
                   | Some reason => reason
                   | None => "Unknown"
                   end) p))
  /\ (forall e, e <> NoSuchKey ->
      get_object env b k = Raise e ->
      step_status env step_id cluster_id w
      = (Raise e,
         mkWorld (S (queries w)) (pipe w) (tx_closed w) (keep_alive w)
                 (trace w ++ [EDescribeStep cluster_id step_id]))).
Proof.
  intros HF HL Hloc. split.
  - intros Hget. eexists. split; [|split].
    + rewrite (step_status_with_details env step_id cluster_id w details
                 p b k HF HL Hloc).
      unfold bind, fetch_log. rewrite Hget. cbn.
      rewrite <- List.app_assoc. reflexivity.
    + reflexivity.
    + reflexivity.
  - intros e Hne Hget.
    rewrite (step_status_with_details env step_id cluster_id w details
               p b k HF HL Hloc).
    unfold bind, fetch_log. rewrite Hget. cbn.
    destruct e; try reflexivity. now elim Hne.
Qed.

Lemma step_status_missing_log_is_not_an_error_witness :
  (exists r,
      step_status
        (Scenario.service Scenario.failed_with_log (Raise NoSuchKey) None (Ok []))
        "s-1" "j-1" fresh
      = (Ok (r, None),
         mkWorld 1 [] false false
                 [EDescribeStep "j-1" "s-1";
                  EPrint (MsgLogNotFound "s-1" "j-1")])
      /\ state r = "FAILED"
      /\ failure_details r
         = Some (mkFailureOutput "Unknown" "s3://logs/j-1/steps/s-1/"))
  /\ step_status
       (Scenario.service Scenario.failed_with_log
                         (Raise (ClientError "AccessDenied")) None (Ok []))
       "s-1" "j-1" fresh
     = (Raise (ClientError "AccessDenied"),
        mkWorld 1 [] false false [EDescribeStep "j-1" "s-1"]).
Proof.
  split.
  - exact (proj1 (step_status_missing_log_is_not_an_error
                    (Scenario.service Scenario.failed_with_log
                                      (Raise NoSuchKey) None (Ok []))
                    "s-1" "j-1" fresh
                    (mkFailureDetails None (Some "s3://logs/j-1/steps/s-1/"))
                    "s3://logs/j-1/steps/s-1/" "logs" "j-1/steps/s-1/stderr.gz"
                    eq_refl eq_refl eq_refl) eq_refl).
  - apply (proj2 (step_status_missing_log_is_not_an_error
                    (Scenario.service Scenario.failed_with_log
                                      (Raise (ClientError "AccessDenied"))
                                      None (Ok []))
                    "s-1" "j-1" fresh
                    (mkFailureDetails None (Some "s3://logs/j-1/steps/s-1/"))
                    "s3://logs/j-1/steps/s-1/" "logs" "j-1/steps/s-1/stderr.gz"
                    eq_refl eq_refl eq_refl)
                 (ClientError "AccessDenied")).
    + discriminate.
    + reflexivity.
Defined.

(** C10: of the two lookups in the failure details only the one of
    [Reason] is guarded: without [LogFile] the status query raises
    [KeyError], whatever else the answer holds, and without [Reason]
    every record it returns carries the reason [Unknown]. *)
Theorem step_status_guards_reason_only
        (env : Env) (step_id cluster_id : string) (w : World)
        (details : FailureDetails) :
  Failure (describe_step env (queries w) cluster_id step_id) = Some details ->
  (LogFile details = None ->
   step_status env step_id cluster_id w
   = (Raise (KeyError "LogFile"),
      mkWorld (S (queries w)) (pipe w) (tx_closed w) (keep_alive w)
              (trace w ++ [EDescribeStep cluster_id step_id])))
  /\ (Reason details = None ->
      forall r err w',
        step_status env step_id cluster_id w = (Ok (r, err), w') ->
        option_map reason (failure_details r) = Some "Unknown").
Proof.
  intros HF. split.
  - intros HL. unfold step_status, client_describe_step, bind. cbn.
    rewrite HF. cbn. rewrite HL. reflexivity.
  - intros HR r err w'.
    unfold step_status, client_describe_step, bind. cbn.
    rewrite HF, HR. cbn.
    destruct (LogFile details) as [p|]; cbn; [|discriminate].
    destruct (log_location p) as [[b k]| e | | ]; cbn; try discriminate.
    unfold fetch_log.
    destruct (obind (get_object env b k) (decompress_decode env))
      as [text| e | | ]; cbn; try discriminate.
    + intros H; inversion H; reflexivity.
    + destruct e; cbn; try discriminate.
      intros H; inversion H; reflexivity.
Qed.

Lemma step_status_guards_reason_only_witness :
  step_status
    (Scenario.service Scenario.failed_without_log (Ok "log") None (Ok []))
    "s-1" "j-1" fresh
  = (Raise (KeyError "LogFile"),
     mkWorld 1 [] false false [EDescribeStep "j-1" "s-1"])
  /\ (forall r err w',
         step_status
           (Scenario.service Scenario.failed_with_log (Ok "log") None (Ok []))
           "s-1" "j-1" fresh = (Ok (r, err), w') ->
         option_map reason (failure_details r) = Some "Unknown")
  /\ fst (step_status
            (Scenario.service Scenario.failed_with_log (Ok "log") None (Ok []))
            "s-1" "j-1" fresh)
     = Ok (mkStatusRecord "job" ["--in"; "s3://data/in"] "CONTINUE" "FAILED"
             (Some (mkFailureOutput "Unknown" "s3://logs/j-1/steps/s-1/")),
           Some "log").
Proof.
  split; [|split].
  - exact (proj1 (step_status_guards_reason_only
                    (Scenario.service Scenario.failed_without_log
                                      (Ok "log") None (Ok []))
                    "s-1" "j-1" fresh
                    (mkFailureDetails (Some "boom") None) eq_refl) eq_refl).
  - exact (proj2 (step_status_guards_reason_only
                    (Scenario.service Scenario.failed_with_log
                                      (Ok "log") None (Ok []))
                    "s-1" "j-1" fresh
                    (mkFailureDetails None (Some "s3://logs/j-1/steps/s-1/"))
                    eq_refl) eq_refl).
  - reflexivity.
Defined.

(** *** The key of the log object *)

Lemma with_log_suffix_ends (k : string) :
  PyStr.endswith (with_log_suffix k) "stderr.gz" = true.
Proof.
  unfold with_log_suffix.
  destruct (PyStr.endswith k "stderr.gz") eqn:E; cbn [negb].
  - exact E.
  - apply PyStrFacts.endswith_app.
Qed.

(** The lines that split the log path are those of [parse_path]. *)
Lemma raw_log_location_parse_path (p : string) :
  raw_log_location p
  = obind (S3Manager.parse_path p)
      (fun pp => Ok (S3Manager.bucket pp, S3Manager.key pp)).
Proof.
  unfold raw_log_location, S3Manager.parse_path.
  destruct (PyStr.group (PyStr.re_match_s3 p)) as [re| | |];
    cbn [obind]; try reflexivity.
  destruct (PyStr.split re "s3://") as [parts| | |];
    cbn [obind]; try reflexivity.
  destruct (PyStr.index parts 1) as [b| | |]; cbn [obind]; try reflexivity.
  destruct (PyStr.split p re) as [pieces| | |]; cbn [obind]; try reflexivity.
  destruct (PyStr.index pieces 1) as [k| | |]; cbn [obind]; reflexivity.
Qed.

(** C7: the key the log is fetched from ends with [stderr.gz]; the
    suffix is added exactly to a key that does not end with it, so to a
    key that ends with a slash and not to one that ends with
    [stderr.gz]; adding it twice is adding it once; and the key
    resolved from a log path is the split-off key with the suffix
    added in this way. *)
Theorem log_key_gets_suffix_once (k : string) :
  PyStr.endswith (with_log_suffix k) "stderr.gz" = true
  /\ (PyStr.endswith k "stderr.gz" = false ->
      with_log_suffix k = k ++ "stderr.gz")
  /\ (PyStr.endswith k "stderr.gz" = true -> with_log_suffix k = k)
  /\ (PyStr.endswith k "/" = true -> with_log_suffix k = k ++ "stderr.gz")
  /\ with_log_suffix (with_log_suffix k) = with_log_suffix k
  /\ (forall p b,
         raw_log_location p = Ok (b, k) ->
         log_location p = Ok (b, with_log_suffix k)).
Proof.
  repeat apply conj.
  - apply with_log_suffix_ends.
  - intros H. unfold with_log_suffix. now rewrite H.
  - intros H. unfold with_log_suffix. now rewrite H.
  - intros H. unfold with_log_suffix.
    now rewrite (PyStrFacts.endswith_slash_not_suffix k H).
  - unfold with_log_suffix at 1.
    now rewrite (with_log_suffix_ends k).
  - intros p b H. unfold log_location. now rewrite H.
Qed.

Lemma log_key_gets_suffix_once_witness :
  with_log_suffix "j-1/steps/s-1/" = "j-1/steps/s-1/stderr.gz"
  /\ with_log_suffix "j-1/steps/s-1/stderr.gz" = "j-1/steps/s-1/stderr.gz"
  /\ log_location "s3://logs/j-1/steps/s-1/"
     = Ok ("logs", "j-1/steps/s-1/stderr.gz")
  /\ log_location "s3://logs/j-1/steps/s-1/stderr.gz"
     = Ok ("logs", "j-1/steps/s-1/stderr.gz").
Proof.
  split; [|split; [|split]].
  - exact (proj1 (proj2 (proj2 (proj2
             (log_key_gets_suffix_once "j-1/steps/s-1/")))) eq_refl).
  - exact (proj1 (proj2 (proj2
             (log_key_gets_suffix_once "j-1/steps/s-1/stderr.gz"))) eq_refl).
  - exact (proj2 (proj2 (proj2 (proj2 (proj2
             (log_key_gets_suffix_once "j-1/steps/s-1/")))))
             "s3://logs/j-1/steps/s-1/" "logs" eq_refl).
  - exact (proj2 (proj2 (proj2 (proj2 (proj2
             (log_key_gets_suffix_once "j-1/steps/s-1/stderr.gz")))))
             "s3://logs/j-1/steps/s-1/stderr.gz" "logs" eq_refl).
Defined.

(** *** The blocking wait *)

Lemma quiet_silent (notice : list Event) (step_id cluster_id : string) :
  quiet notice step_id cluster_id ->
  sent notice = [] /\ received notice = [] /\ slept notice = []
  /\ started notice = [] /\ calls notice = 0.
Proof. intros [-> | ->]; repeat split. Qed.

(** What one status query changes. *)
Lemma step_status_effect (env : Env) (step_id cluster_id : string) (w : World) :
  exists w',
    step_status env step_id cluster_id w
    = (observe env step_id cluster_id (queries w), w')
    /\ queries w' = S (queries w)
    /\ pipe w' = pipe w /\ tx_closed w' = tx_closed w
    /\ keep_alive w' = keep_alive w
    /\ sent (trace w') = sent (trace w)
    /\ received (trace w') = received (trace w)
    /\ slept (trace w') = slept (trace w)
    /\ started (trace w') = started (trace w)
    /\ calls (trace w') = calls (trace w).
Proof.
  destruct (step_status_frame env step_id cluster_id w) as (notice & E & Q).
  destruct (quiet_silent _ _ _ Q) as (Q1 & Q2 & Q3 & Q4 & Q5).
  eexists. split; [exact E|]. cbn.
  rewrite sent_app, received_app, slept_app, started_app, calls_app. cbn.
  rewrite Q1, Q2, Q3, Q4, Q5, !List.app_nil_r, Nat.add_0_r.
  repeat split.
Qed.

Section Waiting.

Variable env : Env.
Variable self : Self.
Variables step_id cluster_id : string.


(** *** The poller *)


(** The poller finds the step in a shutdown state: it prints, closes
    the send side and returns; nothing is put on the pipe. *)
Lemma poll_shutdown (fuel : nat) (w : World)
      (r : StatusRecord * option string) :
  observe env step_id cluster_id (queries w) = Ok r ->
  in_list (state (fst r)) _poll_shutdown_states = true ->
  exists w',
    _poll env self (S fuel) step_id cluster_id w = (Ok tt, w')
    /\ queries w' = S (queries w)
    /\ pipe w' = pipe w
    /\ sent (trace w') = sent (trace w)
    /\ tx_closed w' = true.
Proof.
  intros Hr Ht.
  destruct (step_status_effect env step_id cluster_id w)
    as (w1 & E1 & Q1 & P1 & C1 & K1 & S1 & R1 & L1 & T1 & _).
  rewrite Hr in E1.
  eexists. split.
  - cbn [_poll]. unfold bind at 1. rewrite E1. cbn [fst].
    rewrite Ht. cbn [negb]. reflexivity.
  - cbn. rewrite !sent_app. cbn. rewrite !List.app_nil_r.
    repeat split; congruence.
Qed.

(** The poller finds the step in no shutdown state: it asks again,
    puts the state of the second answer on the pipe, sleeps and goes
    on. *)
Lemma poll_turn (fuel : nat) (w : World)
      (r again : StatusRecord * option string) :
  observe env step_id cluster_id (queries w) = Ok r ->
  in_list (state (fst r)) _poll_shutdown_states = false ->
  observe env step_id cluster_id (S (queries w)) = Ok again ->
  tx_closed w = false ->
  exists w',
    _poll env self (S fuel) step_id cluster_id w
    = _poll env self fuel step_id cluster_id w'
    /\ queries w' = S (S (queries w))
    /\ pipe w' = (pipe w ++ [state (fst again)])%list
    /\ sent (trace w') = (sent (trace w) ++ [state (fst again)])%list
    /\ tx_closed w' = false.
Proof.
  intros Hr Ht Ha Hopen.
  destruct (step_status_effect env step_id cluster_id w)
    as (w1 & E1 & Q1 & P1 & C1 & K1 & S1 & R1 & L1 & T1 & _).
  destruct (step_status_effect env step_id cluster_id w1)
    as (w2 & E2 & Q2 & P2 & C2 & K2 & S2 & R2 & L2 & T2 & _).
  rewrite Hr in E1. rewrite Q1, Ha in E2.
  assert (Hopen2 : tx_closed w2 = false) by congruence.
  eexists. split.
  - cbn [_poll]. unfold bind at 1. rewrite E1. cbn [fst].
    rewrite Ht. cbn [negb].
    unfold bind at 1. rewrite E2. cbn [fst].
    unfold bind at 1. unfold send. rewrite Hopen2.
    unfold bind at 1. unfold sleep, emit.
    cbn [queries pipe tx_closed keep_alive trace]. reflexivity.
  - cbn. rewrite !sent_app. cbn. rewrite !List.app_nil_r.
    repeat split; congruence.
Qed.

End Waiting.




(** C1: when a status query of the poller finds the step in a shutdown
    state, [_poll] prints, closes the send side of the pipe and
    returns, and the state it found is not put on the pipe; when the
    query finds another state, the poller asks the service again, puts
    the state of that second answer on the pipe and goes on. *)
Theorem poll_closes_without_publishing_final_state
        (env : Env) (self : Self) (step_id cluster_id : string)
        (fuel : nat) (w : World) (r : StatusRecord * option string) :
  observe env step_id cluster_id (queries w) = Ok r ->
  (in_list (state (fst r)) _poll_shutdown_states = true ->
   exists w',
     _poll env self (S fuel) step_id cluster_id w = (Ok tt, w')
     /\ queries w' = S (queries w)
     /\ pipe w' = pipe w
     /\ sent (trace w') = sent (trace w)
     /\ tx_closed w' = true)
  /\ (in_list (state (fst r)) _poll_shutdown_states = false ->
      forall again,
        observe env step_id cluster_id (S (queries w)) = Ok again ->
        tx_closed w = false ->
        exists w',
          _poll env self (S fuel) step_id cluster_id w
          = _poll env self fuel step_id cluster_id w'
          /\ queries w' = S (S (queries w))
          /\ pipe w' = (pipe w ++ [state (fst again)])%list
          /\ sent (trace w') = (sent (trace w) ++ [state (fst again)])%list
          /\ tx_closed w' = false).
Proof.
  intros Hr. split.
  - intros Ht. now apply (poll_shutdown env self step_id cluster_id fuel w r).
  - intros Ht again Ha Hopen.
    now apply (poll_turn env self step_id cluster_id fuel w r again).
Qed.

Lemma poll_closes_without_publishing_final_state_witness :
  exists w',
    _poll (Scenario.service Scenario.already_completed (Raise NoSuchKey)
                            None (Ok []))
          Scenario.manager 1 "s-1" "j-1" fresh
    = (Ok tt, w')
    /\ pipe w' = []
    /\ sent (trace w') = []
    /\ tx_closed w' = true.
Proof.
  destruct (proj1 (poll_closes_without_publishing_final_state
                     (Scenario.service Scenario.already_completed
                                       (Raise NoSuchKey) None (Ok []))
                     Scenario.manager "s-1" "j-1" 0 fresh
                     (mkStatusRecord "job" ["--in"; "s3://data/in"]
                                     "CONTINUE" "COMPLETED" None, None)
                     eq_refl) eq_refl)
    as (w' & E & _ & P & S & C).
  exists w'. repeat split; assumption.
Defined.

(** *** The listener *)

(** A turn of the listener's loop takes two states off the pipe: the
    first is compared with the target, the second is only printed. *)
Lemma listener_turn (fuel : nat) (callback : option Callable)
      (callback_arg : option string) (a b : string) (rest : list string)
      (q : nat) (closed alive : bool) (t : list Event) :
  differs a callback_arg = true ->
  _listener (S fuel) callback callback_arg
            (mkWorld q (a :: b :: rest) closed alive t)
  = _listener fuel callback callback_arg
              (mkWorld q rest closed alive
                 (t ++ [ERecv a; ERecv b;
                        EPrint (MsgWaiting b callback_arg)])).
Proof.
  intros H. cbn [_listener]. unfold bind at 1. unfold recv at 1.
  cbn [pipe queries tx_closed keep_alive trace]. rewrite H.
  unfold bind at 1. unfold recv at 1.
  cbn [pipe queries tx_closed keep_alive trace].
  unfold bind at 1. unfold print, emit.
  cbn [pipe queries tx_closed keep_alive trace].
  now rewrite <- !List.app_assoc.
Qed.

(** C2: the listener does not compare every published state with the
    target.  On RUNNING, RUNNING, COMPLETED with target COMPLETED the
    callback is called once, after the third read, the second state
    having been read for the printed line only; on RUNNING, COMPLETED
    the state COMPLETED is used up by the printed line, the next read
    finds the pipe empty, and the callback is never called. *)
Theorem listener_misses_target_at_even_position
        (c : Callable) (closed : bool) (fuel : nat) :
  _listener (2 + fuel) (Some c) (Some "COMPLETED")
            (Scenario.in_flight ["RUNNING"; "RUNNING"; "COMPLETED"] closed)
  = (Ok tt,
     mkWorld 0 [] closed false
             [ERecv "RUNNING"; ERecv "RUNNING";
              EPrint (MsgWaiting "RUNNING" (Some "COMPLETED"));
              ERecv "COMPLETED"; ECall c])
  /\ _listener (2 + fuel) (Some c) (Some "COMPLETED")
               (Scenario.in_flight ["RUNNING"; "COMPLETED"] closed)
     = (if closed then Raise EOFError else Blocked,
        mkWorld 0 [] closed false
                [ERecv "RUNNING"; ERecv "COMPLETED";
                 EPrint (MsgWaiting "COMPLETED" (Some "COMPLETED"))])
  /\ calls (trace (snd (_listener (2 + fuel) (Some c) (Some "COMPLETED")
                          (Scenario.in_flight ["RUNNING"; "COMPLETED"]
                                              closed)))) = 0.
Proof.
  unfold Scenario.in_flight.
  change (2 + fuel) with (S (S fuel)).
  rewrite !listener_turn by reflexivity.
  destruct closed; repeat split.
Qed.

(** *** Starting a watch *)

(** C3: a target outside the valid states is refused only after the
    poller process has been started: [watch_step] starts the poller,
    prints its two lines and the refusal, and returns without starting
    a listener. *)
Theorem watch_step_refuses_after_starting_poller
        (self : Self) (step_id cluster_id : string) (c : Callable)
        (callback_arg : option string) (w : World) :
  opt_in_list callback_arg valid_states = false ->
  watch_step self step_id cluster_id (Some c) callback_arg w
  = (Ok tt,
     mkWorld (queries w) (pipe w) (tx_closed w) (keep_alive w)
             (trace w ++ [EStart (PollProc step_id cluster_id);
                          EPrint (MsgWatching step_id callback_arg);
                          EPrint (MsgUpdatedEvery (_poll_time self));
                          EPrint (MsgCallbackArgInvalid valid_states)]))
  /\ started (trace (snd (watch_step self step_id cluster_id (Some c)
                                     callback_arg w)))
     = (started (trace w) ++ [PollProc step_id cluster_id])%list.
Proof.
  intros H.
  assert (E : watch_step self step_id cluster_id (Some c) callback_arg w
              = (Ok tt,
                 mkWorld (queries w) (pipe w) (tx_closed w) (keep_alive w)
                   (trace w ++ [EStart (PollProc step_id cluster_id);
                                EPrint (MsgWatching step_id callback_arg);
                                EPrint (MsgUpdatedEvery (_poll_time self));
                                EPrint (MsgCallbackArgInvalid valid_states)]))).
  { unfold watch_step, bind, print, emit, ret. cbn. rewrite H. cbn.
    now rewrite <- !List.app_assoc. }
  split; [exact E|].
  rewrite E. cbn. rewrite started_app. reflexivity.
Qed.

Lemma watch_step_refuses_after_starting_poller_witness :
  started (trace (snd (watch_step Scenario.manager "s-1" "j-1"
                                  (Some Scenario.callback) (Some "BOGUS")
                                  fresh)))
  = [PollProc "s-1" "j-1"].
Proof.
  exact (proj2 (watch_step_refuses_after_starting_poller
                  Scenario.manager "s-1" "j-1" Scenario.callback
                  (Some "BOGUS") fresh eq_refl)).
Defined.

(** C4: without a callback [watch_step] reads one state and prints it,
    and then goes on to start a listener process with no callback; that
    listener keeps taking states off the pipe, two a turn, and raises
    [TypeError] when a state equals its target. *)
Theorem watch_step_without_callback_starts_listener
        (self : Self) (step_id cluster_id : string)
        (callback_arg : option string) (x : string) (rest : list string)
        (q : nat) (closed alive : bool) (t : list Event) :
  watch_step self step_id cluster_id None callback_arg
             (mkWorld q (x :: rest) closed alive t)
  = (Ok tt,
     mkWorld q rest closed alive
             (t ++ [EStart (PollProc step_id cluster_id);
                    EPrint (MsgWatching step_id callback_arg);
                    EPrint (MsgUpdatedEvery (_poll_time self));
                    ERecv x;
                    EPrint (MsgStepState step_id x);
                    EStart (ListenerProc None callback_arg)]))
  /\ (forall env fuel y z more t',
         target env self (S fuel) (ListenerProc None None)
                (mkWorld q (y :: z :: more) closed alive t')
         = target env self fuel (ListenerProc None None)
                  (mkWorld q more closed alive
                     (t' ++ [ERecv y; ERecv z; EPrint (MsgWaiting z None)])))
  /\ (forall env fuel y more t',
         target env self (S fuel) (ListenerProc None (Some y))
                (mkWorld q (y :: more) closed alive t')
         = (Raise TypeError,
            mkWorld q more closed alive (t' ++ [ERecv y]))).
Proof.
  split; [|split].
  - unfold watch_step, bind, print, emit, ret, recv. cbn.
    now rewrite <- !List.app_assoc.
  - intros env fuel y z more t'. cbn [target].
    now apply listener_turn.
  - intros env fuel y more t'. cbn [target _listener].
    unfold bind, recv. cbn. now rewrite String.eqb_refl.
Qed.

(** *** Launching *)

Lemma dict_append_single (id : string) (l : list string) (x : string) :
  dict_append [(id, l)] id x = Ok [(id, (l ++ [x])%list)].
Proof. unfold dict_append. cbn. now rewrite String.eqb_refl. Qed.

(** Appending the step ids under the one key of the dictionary. *)
Lemma dict_append_all_single (id : string) (xs : list string) :
  forall l, dict_append_all [(id, l)] id xs = Ok [(id, (l ++ xs)%list)].
Proof.
  induction xs as [|x xs IH]; intros l.
  - cbn. now rewrite List.app_nil_r.
  - cbn [dict_append_all]. rewrite dict_append_single. cbn [obind].
    rewrite IH. now rewrite <- List.app_assoc.
Qed.

(** C8: [launch_cluster] returns the cluster id of the answer, and the
    empty string after a printed line when the answer has none.
    [launch_cluster_with_jobs] returns the id with the listed step ids
    when the answer has one; when it has none, the printed line is
    followed by a listing of the steps of the cluster with the empty
    id, and an exception of that listing, or a [KeyError] on the first
    listed step, leaves the method. *)
Theorem launch_cluster_with_jobs_fails_without_id
        (env : Env) (self : Self) (assembly_path : string)
        (class_and_args : list (string * list string))
        (cluster_name : option string) (w : World) :
  let response :=
    run_job_flow env
      (mkJobFlowRequest (format_opt cluster_name ++ "-m2x") false
                        (ec2_key_name self) (log_uri self)
                        (map (job_step env assembly_path) class_and_args)) in
  (forall name,
      fst (launch_cluster env self name w)
      = Ok (match JobFlowId
                    (run_job_flow env
                       (mkJobFlowRequest name true (ec2_key_name self)
                                         (log_uri self) []))
            with
            | Some id => id
            | None => ""
            end))
  /\ (forall id ids,
         JobFlowId response = Some id ->
         list_steps env id = Ok ids ->
         fst (launch_cluster_with_jobs env self assembly_path class_and_args
                                       cluster_name w)
         = Ok [(id, ids)])
  /\ (JobFlowId response = None ->
      (forall x xs,
          list_steps env "" = Ok (x :: xs) ->
          launch_cluster_with_jobs env self assembly_path class_and_args
                                   cluster_name w
          = (Raise (KeyError ""),
             mkWorld (queries w) (pipe w) (tx_closed w) false
                     (trace w ++ [EPrint (MsgJobFlowIdMissing response)])))
      /\ (forall e,
             list_steps env "" = Raise e ->
             launch_cluster_with_jobs env self assembly_path class_and_args
                                      cluster_name w
             = (Raise e,
                mkWorld (queries w) (pipe w) (tx_closed w) false
                        (trace w ++ [EPrint (MsgJobFlowIdMissing response)])))).
Proof.
  intros response. split; [|split].
  - intros name.
    unfold launch_cluster, bind, set_keep_alive, client_run_job_flow. cbn.
    destruct (JobFlowId _); reflexivity.
  - intros id ids Hid Hls.
    unfold launch_cluster_with_jobs, bind, set_keep_alive,
      client_run_job_flow. cbn.
    fold response. rewrite Hid. cbn. rewrite Hls. cbn.
    now rewrite (dict_append_all_single id ids []).
  - intros Hid. split.
    + intros x xs Hls.
      unfold launch_cluster_with_jobs, bind, set_keep_alive,
        client_run_job_flow. cbn.
      fold response. rewrite Hid. cbn. rewrite Hls. reflexivity.
    + intros e Hls.
      unfold launch_cluster_with_jobs, bind, set_keep_alive,
        client_run_job_flow. cbn.
      fold response. rewrite Hid. cbn. rewrite Hls. reflexivity.
Qed.

Lemma launch_cluster_with_jobs_fails_without_id_witness :
  fst (launch_cluster_with_jobs
         (Scenario.service Scenario.already_completed (Raise NoSuchKey)
                           None (Ok ["s-1"]))
         Scenario.manager "s3://jars/app.jar" [("org.example.Job", ["1"])]
         (Some "nightly") fresh)
  = Raise (KeyError "")
  /\ fst (launch_cluster_with_jobs
            (Scenario.service Scenario.already_completed (Raise NoSuchKey)
                              None (Raise (ClientError "ValidationException")))
            Scenario.manager "s3://jars/app.jar" [("org.example.Job", ["1"])]
            (Some "nightly") fresh)
     = Raise (ClientError "ValidationException")
  /\ fst (launch_cluster_with_jobs
            (Scenario.service Scenario.already_completed (Raise NoSuchKey)
                              (Some "j-1") (Ok ["s-1"; "s-2"]))
            Scenario.manager "s3://jars/app.jar" [("org.example.Job", ["1"])]
            (Some "nightly") fresh)
     = Ok [("j-1", ["s-1"; "s-2"])].
Proof.
  split; [|split].
  - rewrite (proj1 (proj2 (proj2
      (launch_cluster_with_jobs_fails_without_id
         (Scenario.service Scenario.already_completed (Raise NoSuchKey)
                           None (Ok ["s-1"]))
         Scenario.manager "s3://jars/app.jar" [("org.example.Job", ["1"])]
         (Some "nightly") fresh)) eq_refl) "s-1" [] eq_refl).
    reflexivity.
  - rewrite (proj2 (proj2 (proj2
      (launch_cluster_with_jobs_fails_without_id
         (Scenario.service Scenario.already_completed (Raise NoSuchKey)
                           None (Raise (ClientError "ValidationException")))
         Scenario.manager "s3://jars/app.jar" [("org.example.Job", ["1"])]
         (Some "nightly") fresh)) eq_refl)
      (ClientError "ValidationException") eq_refl).
    reflexivity.
  - exact (proj1 (proj2
      (launch_cluster_with_jobs_fails_without_id
         (Scenario.service Scenario.already_completed (Raise NoSuchKey)
                           (Some "j-1") (Ok ["s-1"; "s-2"]))
         Scenario.manager "s3://jars/app.jar" [("org.example.Job", ["1"])]
         (Some "nightly") fresh)) "j-1" ["s-1"; "s-2"] eq_refl eq_refl).
Defined.

End ClusterManagerFacts.

(** ** More on parse_path *)

Module ParsePathFacts.
Import PyStr PyStrFacts S3Manager.

Lemma prefix_app_mono (a s t : string) :
  String.prefix a s = true -> String.prefix a (s ++ t) = true.
Proof.
  intros H. destruct (prefix_split _ _ H) as [r ->].
  rewrite app_assoc. apply prefix_app.
Qed.

Lemma contains_empty (c : ascii) (sep' : string) :
  contains (String c sep') "" = false.
Proof. reflexivity. Qed.

(** The first piece of a split: the text before the first occurrence of
    the separator, or the whole text when there is none. *)
Lemma split_scan_first (c : ascii) (sep' : string) (s : string) :
  forall piece,
  exists x others,
    split_scan (String c sep') s 0 piece = rev_onto piece x :: others
    /\ contains (String c sep') x = false
    /\ (s = x \/ exists rest, s = x ++ String c sep' ++ rest).
Proof.
  induction s as [|a s IH]; intros piece.
  - exists "", []. repeat split. now left.
  - destruct (String.prefix (String c sep') (String a s)) eqn:Hp.
    + exists "". eexists. split; [|split].
      * cbn [split_scan]. rewrite Hp. reflexivity.
      * reflexivity.
      * right. destruct (prefix_split _ _ Hp) as [rest Hr].
        exists rest. exact Hr.
    + destruct (IH (String a piece)) as (x & others & E & Hc & Hs).
      exists (String a x), others. split; [|split].
      * cbn [split_scan]. rewrite Hp. exact E.
      * cbn [contains]. rewrite Hc, orb_false_r.
        destruct (String.prefix (String c sep') (String a x)) eqn:Hx;
          [|reflexivity].
        destruct Hs as [-> | (rest & ->)]; [congruence|].
        change (String a (x ++ String c sep' ++ rest))
          with (String a x ++ String c sep' ++ rest) in Hp.
        rewrite (prefix_app_mono _ _ _ Hx) in Hp. discriminate.
      * destruct Hs as [-> | (rest & ->)]; [now left|].
        right. now exists rest.
Qed.

(** What [parse_path] yields on a path with a bucket segment: the
    bucket, and as key the text before the first return of the matched
    prefix. *)
Lemma parse_path_shape (b k : string) :
  has_char slash b = false ->
  has_char newline b = false ->
  exists x,
    parse_path ("s3://" ++ b ++ "/" ++ k)
    = Ok (mkParsedPath ("s3://" ++ b ++ "/" ++ k) b x)
    /\ contains ("s3://" ++ b ++ "/") x = false
    /\ (k = x \/ exists rest, k = x ++ ("s3://" ++ b ++ "/") ++ rest).
Proof.
  intros Hs Hn.
  remember ("s3://" ++ b ++ "/") as regex eqn:E.
  assert (Ep : "s3://" ++ b ++ "/" ++ k = regex ++ k)
    by (subst regex; rewrite !app_assoc; reflexivity).
  destruct regex as [|c sep']; [discriminate E|].
  destruct (split_scan_first c sep' k "") as (x & others & Ex & Hc & Hk).
  exists x. split; [|split; assumption].
  unfold parse_path.
  rewrite (re_match_s3_bucket b k Hs Hn). cbn [group obind].
  rewrite (S3ManagerFacts.split_regex_on_scheme b Hs).
  cbn [obind index nth_error].
  rewrite Ep, <- E. unfold split.
  rewrite split_scan_at_sep, Ex. cbn [obind index nth_error rev_onto].
  now rewrite (strip_bucket b Hs).
Qed.

(** X1: [parse_path] either returns or raises [AttributeError], no other
    exception; it returns exactly on the paths that start with [s3://],
    go on with a bucket segment free of slashes and newlines, and have a
    slash after it. *)
Theorem parse_path_succeeds_iff_prefix_matches (p : string) :
  ((exists pp, parse_path p = Ok pp) \/ parse_path p = Raise AttributeError)
  /\ ((exists pp, parse_path p = Ok pp)
      <-> exists b k, p = "s3://" ++ b ++ "/" ++ k
                      /\ has_char slash b = false
                      /\ has_char newline b = false).
Proof.
  destruct (re_match_s3 p) as [r|] eqn:Hm.
  - destruct (re_match_s3_inv _ _ Hm) as (b & k & -> & _ & Hs & Hn).
    destruct (parse_path_shape b k Hs Hn) as (x & Hx & _).
    split; [left; eauto|]. split; [|eauto].
    intros _. now exists b, k.
  - assert (E : parse_path p = Raise AttributeError)
      by (unfold parse_path; now rewrite Hm).
    split; [now right|]. split.
    + intros (pp & Hpp). congruence.
    + intros (b & k & -> & Hs & Hn).
      rewrite (re_match_s3_bucket b k Hs Hn) in Hm. discriminate.
Qed.

Lemma parse_path_inv (p : string) (pp : ParsedPath) :
  parse_path p = Ok pp ->
  path pp = p
  /\ has_char slash (bucket pp) = false
  /\ has_char newline (bucket pp) = false
  /\ contains ("s3://" ++ bucket pp ++ "/") (key pp) = false
  /\ (p = unparse pp
      \/ exists rest, p = unparse pp ++ ("s3://" ++ bucket pp ++ "/") ++ rest).
Proof.
  intros H.
  destruct (re_match_s3 p) as [r|] eqn:Hm.
  2:{ unfold parse_path in H. rewrite Hm in H. discriminate. }
  destruct (re_match_s3_inv _ _ Hm) as (b & k & -> & _ & Hs & Hn).
  destruct (parse_path_shape b k Hs Hn) as (x & Hx & Hc & Hk).
  rewrite Hx in H. inversion H; subst pp. cbn [path bucket key].
  repeat split; try assumption.
  unfold unparse. cbn [bucket key].
  destruct Hk as [-> | (rest & ->)]; [now left|].
  right. exists rest.
  change ("s3://" ++ b ++ "/" ++ x) with ("s3://" ++ (b ++ "/" ++ x)).
  rewrite !app_assoc. reflexivity.
Qed.

(** A path either parses or raises [AttributeError]. *)
Lemma parse_path_total (p : string) :
  (exists pp, parse_path p = Ok pp) \/ parse_path p = Raise AttributeError.
Proof.
  destruct (re_match_s3 p) as [r|] eqn:Hm.
  - destruct (re_match_s3_inv _ _ Hm) as (b & k & -> & _ & Hs & Hn).
    destruct (parse_path_shape b k Hs Hn) as (x & Hx & _). left; eauto.
  - right. unfold parse_path. now rewrite Hm.
Qed.

(** X2: a parse keeps the path, its bucket has no slash and no newline,
    its key does not contain the text [s3://bucket/], and the path is
    the rebuilt one, alone or followed by that text and more. *)
Theorem parse_path_result_shape (p : string) (pp : ParsedPath) :
  parse_path p = Ok pp ->
  path pp = p
  /\ has_char slash (bucket pp) = false
  /\ has_char newline (bucket pp) = false
  /\ contains ("s3://" ++ bucket pp ++ "/") (key pp) = false
  /\ (p = unparse pp
      \/ exists rest, p = unparse pp ++ ("s3://" ++ bucket pp ++ "/") ++ rest).
Proof. exact (parse_path_inv p pp). Qed.

Lemma parse_path_result_shape_witness :
  path (mkParsedPath "s3://b/x/s3://b/y" "b" "x/") = "s3://b/x/s3://b/y"
  /\ has_char slash "b" = false
  /\ has_char newline "b" = false
  /\ contains "s3://b/" "x/" = false
  /\ ("s3://b/x/s3://b/y" = "s3://b/x/"
      \/ exists rest, "s3://b/x/s3://b/y" = "s3://b/x/" ++ "s3://b/" ++ rest).
Proof.
  exact (parse_path_result_shape "s3://b/x/s3://b/y"
           (mkParsedPath "s3://b/x/s3://b/y" "b" "x/") eq_refl).
Defined.

(** X3: bucket and key of a parse rebuild a path that parses to the same
    bucket and key. *)
Theorem parse_path_of_rebuilt_path (p : string) (pp : ParsedPath) :
  parse_path p = Ok pp ->
  parse_path (unparse pp)
  = Ok (mkParsedPath (unparse pp) (bucket pp) (key pp)).
Proof.
  intros H.
  destruct (parse_path_inv p pp H) as (_ & Hs & Hn & Hc & _).
  exact (proj1 (S3ManagerFacts.parse_path_round_trip
                  (bucket pp) (key pp) Hs Hn Hc)).
Qed.

Lemma parse_path_of_rebuilt_path_witness :
  parse_path "s3://b/x/" = Ok (mkParsedPath "s3://b/x/" "b" "x/").
Proof.
  exact (parse_path_of_rebuilt_path "s3://b/x/s3://b/y"
           (mkParsedPath "s3://b/x/s3://b/y" "b" "x/") eq_refl).
Defined.

End ParsePathFacts.

(** ** The session of s3_manager.py *)

Module S3SessionFacts.
Import PyStr S3Manager S3Session.

(** A path that parses starts with the letter of the scheme. *)
Lemma parsed_path_characters (p : string) (pp : ParsedPath) :
  parse_path p = Ok pp ->
  exists rest, characters p = "s" :: rest.
Proof.
  intros H.
  destruct (ParsePathFacts.parse_path_inv p pp H) as (_ & _ & _ & _ & Hp).
  unfold unparse in Hp.
  destruct Hp as [-> | (rest & ->)]; cbn; eauto.
Qed.

(** The keys of the characters of a path that parses cannot be taken:
    its first character is no path. *)
Lemma keys_of_characters (p : string) (pp : ParsedPath) :
  parse_path p = Ok pp ->
  keys_of (characters p) = Raise AttributeError.
Proof.
  intros H. destruct (parsed_path_characters p pp H) as (rest & ->).
  reflexivity.
Qed.

(** X4: [delete] never reaches the store: for every path it raises
    [AttributeError] and leaves the session as it was, because it maps
    [parse_path] over the characters of the path. *)
Theorem delete_always_raises (p : string) (s : Session) :
  delete p s = (Raise AttributeError, s).
Proof.
  unfold delete, sbind, slift.
  destruct (ParsePathFacts.parse_path_total p) as [(pp & H) | H]; rewrite H.
  - now rewrite (keys_of_characters p pp H).
  - reflexivity.
Qed.

(** X5: [move] and [copy] never reach the store either: for every
    origin and destination they raise [AttributeError] and leave the
    session as it was. *)
Theorem move_and_copy_always_raise (origin destination : string) (s : Session) :
  move origin destination s = (Raise AttributeError, s)
  /\ copy origin destination s = (Raise AttributeError, s).
Proof.
  unfold move, copy, sbind, slift.
  destruct (ParsePathFacts.parse_path_total origin) as [(pp & H) | H];
    rewrite H; [|now split].
  destruct (ParsePathFacts.parse_path_total destination) as [(pq & H') | H'];
    rewrite H'; [|now split].
  now rewrite (keys_of_characters origin pp H).
Qed.

(** X6: no [ClientError] leaves [get]: an exception that [get] raises is
    of another class; and [get] changes nothing in the store, at most
    one line is logged. *)
Theorem get_lets_no_client_error_out (client : Client) (p : string)
        (s : Session) :
  (forall e, fst (get client p s) = Raise e -> client_error_code e = None)
  /\ (done (snd (get client p s)) = done s
      \/ done (snd (get client p s)) = (done s ++ [LogError p])%list).
Proof.
  unfold get, sbind, slift.
  destruct (ParsePathFacts.parse_path_total p) as [(pp & H) | H]; rewrite H.
  2:{ split; [|now left]. cbn. intros e E. now inversion E. }
  destruct (obind (get_object client (bucket pp) (KeyStr (key pp)))
                  (decode client)) as [text| e | |]; cbn;
    try (split; [discriminate | now left]).
  destruct (client_error_code e) as [code|] eqn:Hc; cbn.
  - unfold note_error, sbind, set_error. cbn.
    destruct (String.eqb code "NoSuchKey"); cbn;
      (split; [discriminate | auto]).
  - split; [|now left]. intros e' E. now inversion E; subst.
Qed.

(** X7: what [get] does with the answer of the store: the decoded body
    is returned; a [ClientError] is kept in [self.error] and [None] is
    returned, with a logged line when its code is [NoSuchKey]. *)
Theorem get_outcomes (client : Client) (p : string) (pp : ParsedPath)
        (s : Session) :
  parse_path p = Ok pp ->
  (forall body text,
      get_object client (bucket pp) (KeyStr (key pp)) = Ok body ->
      decode client body = Ok text ->
      get client p s = (Ok (Some text), s))
  /\ (forall e code,
         get_object client (bucket pp) (KeyStr (key pp)) = Raise e ->
         client_error_code e = Some code ->
         get client p s
         = (Ok None,
            mkSession (Some e) (buffer s)
                      (done s ++ if String.eqb code "NoSuchKey"
                                 then [LogError p] else []))).
Proof.
  intros H. split.
  - intros body text Hg Hd. unfold get, sbind, slift.
    rewrite H, Hg. cbn. now rewrite Hd.
  - intros e code Hg Hc. unfold get, sbind, slift.
    rewrite H, Hg. cbn. rewrite Hc.
    unfold note_error, sbind, set_error. cbn.
    destruct (String.eqb code "NoSuchKey"); cbn; [reflexivity|].
    now rewrite List.app_nil_r; destruct s.
Qed.

Lemma get_outcomes_witness :
  get (SessionScenario.holds "data" "in/a.csv" "x,y") "s3://data/in/a.csv" new
  = (Ok (Some "x,y"), new)
  /\ get (SessionScenario.holds "data" "in/a.csv" "x,y") "s3://data/in/b.csv"
         new
     = (Ok None, mkSession (Some NoSuchKey) "" [LogError "s3://data/in/b.csv"])
  /\ get (SessionScenario.store (Raise (ClientError "AccessDenied")) (Ok None))
         "s3://data/in/a.csv" new
     = (Ok None, mkSession (Some (ClientError "AccessDenied")) "" []).
Proof.
  split; [|split].
  - exact (proj1 (get_outcomes
                    (SessionScenario.holds "data" "in/a.csv" "x,y")
                    "s3://data/in/a.csv"
                    (mkParsedPath "s3://data/in/a.csv" "data" "in/a.csv")
                    new eq_refl) "x,y" "x,y" eq_refl eq_refl).
  - exact (proj2 (get_outcomes
                    (SessionScenario.holds "data" "in/a.csv" "x,y")
                    "s3://data/in/b.csv"
                    (mkParsedPath "s3://data/in/b.csv" "data" "in/b.csv")
                    new eq_refl) NoSuchKey "NoSuchKey" eq_refl eq_refl).
  - exact (proj2 (get_outcomes
                    (SessionScenario.store (Raise (ClientError "AccessDenied"))
                                           (Ok None))
                    "s3://data/in/a.csv"
                    (mkParsedPath "s3://data/in/a.csv" "data" "in/a.csv")
                    new eq_refl) (ClientError "AccessDenied") "AccessDenied"
                 eq_refl eq_refl).
Defined.

(** What [list_] returns when it returns. *)
Lemma list_returns (client : Client) (p : string) (s s' : Session)
      (l : list string) :
  list_ client p s = (Ok l, s') ->
  exists pp keys,
    parse_path p = Ok pp
    /\ l = map (fun k => "s3://" ++ bucket pp ++ "/" ++ k) keys.
Proof.
  unfold list_, sbind, slift.
  destruct (ParsePathFacts.parse_path_total p) as [(pp & H) | H]; rewrite H;
    [|discriminate].
  destruct (list_objects_v2 client (bucket pp) (key pp))
    as [[keys|]| e | |]; cbn; try discriminate.
  - intros E. inversion E; subst. now exists pp, keys.
  - destruct (client_error_code e) as [code|]; cbn; [|discriminate].
    unfold note_error, sbind, set_error. cbn.
    destruct (String.eqb code "NoSuchKey"); cbn;
      intros E; inversion E; subst; now exists pp, [].
Qed.

(** X8: every path that [list_] returns can be passed to [parse_path]
    again: it parses, and to the bucket of the listed path. *)
Theorem listed_paths_parse_to_the_bucket
        (client : Client) (p : string) (s s' : Session) (l : list string) :
  list_ client p s = (Ok l, s') ->
  exists pp,
    parse_path p = Ok pp
    /\ forall q, In q l ->
                 exists pq, parse_path q = Ok pq /\ bucket pq = bucket pp.
Proof.
  intros H. destruct (list_returns client p s s' l H) as (pp & keys & Hp & ->).
  exists pp. split; [exact Hp|].
  destruct (ParsePathFacts.parse_path_inv p pp Hp) as (_ & Hs & Hn & _).
  intros q Hq. apply in_map_iff in Hq as (k & <- & _).
  destruct (ParsePathFacts.parse_path_shape (bucket pp) k Hs Hn)
    as (x & Hx & _).
  eexists. split; [exact Hx | reflexivity].
Qed.

Lemma listed_paths_parse_to_the_bucket_witness :
  exists pp,
    parse_path "s3://data/in/" = Ok pp
    /\ forall q,
         In q ["s3://data/in/a.csv"; "s3://data/in/b.csv"] ->
         exists pq, parse_path q = Ok pq /\ bucket pq = bucket pp.
Proof.
  exact (listed_paths_parse_to_the_bucket
           (SessionScenario.store (Raise NoSuchKey)
                                  (Ok (Some ["in/a.csv"; "in/b.csv"])))
           "s3://data/in/" new new
           ["s3://data/in/a.csv"; "s3://data/in/b.csv"] eq_refl).
Defined.

(** X9: the failures of a listing: an answer without [Contents] makes
    [list_] raise [KeyError]; a [ClientError] is kept in [self.error]
    and the empty list is returned, with a logged line when its code is
    [NoSuchKey]; and no [ClientError] leaves [list_]. *)
Theorem list_failures (client : Client) (p : string) (pp : ParsedPath)
        (s : Session) :
  parse_path p = Ok pp ->
  (list_objects_v2 client (bucket pp) (key pp) = Ok None ->
   list_ client p s = (Raise (KeyError "Contents"), s))
  /\ (forall e code,
         list_objects_v2 client (bucket pp) (key pp) = Raise e ->
         client_error_code e = Some code ->
         list_ client p s
         = (Ok [],
            mkSession (Some e) (buffer s)
                      (done s ++ if String.eqb code "NoSuchKey"
                                 then [LogError p] else [])))
  /\ (forall e, fst (list_ client p s) = Raise e -> client_error_code e = None).
Proof.
  intros H. split; [|split].
  - intros Hl. unfold list_, sbind, slift. now rewrite H, Hl.
  - intros e code Hl Hc. unfold list_, sbind, slift.
    rewrite H, Hl, Hc.
    unfold note_error, sbind, set_error. cbn.
    destruct (String.eqb code "NoSuchKey"); cbn; [reflexivity|].
    now rewrite List.app_nil_r; destruct s.
  - unfold list_, sbind, slift. rewrite H.
    destruct (list_objects_v2 client (bucket pp) (key pp))
      as [[keys|]| e | |]; cbn; try discriminate.
    + intros e E. now inversion E.
    + destruct (client_error_code e) as [code|] eqn:Hc; cbn.
      * unfold note_error, sbind, set_error. cbn.
        destruct (String.eqb code "NoSuchKey"); cbn; discriminate.
      * intros e' E. now inversion E; subst.
Qed.

Lemma list_failures_witness :
  list_ (SessionScenario.store (Raise NoSuchKey) (Ok None)) "s3://data/in/" new
  = (Raise (KeyError "Contents"), new)
  /\ list_ (SessionScenario.store (Raise NoSuchKey)
                                  (Raise (ClientError "AccessDenied")))
           "s3://data/in/" new
     = (Ok [], mkSession (Some (ClientError "AccessDenied")) "" []).
Proof.
  split.
  - exact (proj1 (list_failures
                    (SessionScenario.store (Raise NoSuchKey) (Ok None))
                    "s3://data/in/" (mkParsedPath "s3://data/in/" "data" "in/")
                    new eq_refl) eq_refl).
  - exact (proj1 (proj2 (list_failures
                    (SessionScenario.store (Raise NoSuchKey)
                                           (Raise (ClientError "AccessDenied")))
                    "s3://data/in/" (mkParsedPath "s3://data/in/" "data" "in/")
                    new eq_refl))
                 (ClientError "AccessDenied") "AccessDenied" eq_refl eq_refl).
Defined.

(** X10: [path_exists] does not look at the key of the path: two paths
    in one bucket get the same answer; the answer is [False] only when
    the store raises a [ClientError] with code [NoSuchKey] for the key
    argument [["key"]], and [True] after every other [ClientError]. *)
Theorem path_exists_ignores_the_key (client : Client) (p : string)
        (pp : ParsedPath) (s : Session) :
  parse_path p = Ok pp ->
  (forall q pq,
      parse_path q = Ok pq -> bucket pq = bucket pp ->
      path_exists client q s = path_exists client p s)
  /\ (fst (path_exists client p s) = Ok false ->
      exists e,
        get_object client (bucket pp) (KeyList ["key"]) = Raise e
        /\ client_error_code e = Some "NoSuchKey")
  /\ (forall e code,
         get_object client (bucket pp) (KeyList ["key"]) = Raise e ->
         client_error_code e = Some code ->
         code <> "NoSuchKey" ->
         fst (path_exists client p s) = Ok true)
  /\ (forall e,
         get_object client (bucket pp) (KeyList ["key"]) = Raise e ->
         client_error_code e = None ->
         path_exists client p s = (Raise e, s)).
Proof.
  intros H. split; [|split; [|split]].
  - intros q pq Hq Hb. unfold path_exists, sbind, slift.
    now rewrite H, Hq, Hb.
  - unfold path_exists, sbind, slift. rewrite H.
    destruct (get_object client (bucket pp) (KeyList ["key"]))
      as [body| e | |]; cbn; try discriminate.
    destruct (client_error_code e) as [code|] eqn:Hc; cbn; [|discriminate].
    destruct (String.eqb code "NoSuchKey") eqn:Ec; cbn; [|discriminate].
    apply String.eqb_eq in Ec. subst code. intros _. now exists e.
  - intros e code Hg Hc Hne. unfold path_exists, sbind, slift.
    rewrite H, Hg. cbn. rewrite Hc. cbn.
    apply String.eqb_neq in Hne. now rewrite Hne.
  - intros e Hg Hc. unfold path_exists, sbind, slift.
    rewrite H, Hg. cbn. now rewrite Hc.
Qed.

Lemma path_exists_ignores_the_key_witness :
  path_exists (SessionScenario.holds "data" "in/a.csv" "x,y")
              "s3://data/no/such/key" new
  = path_exists (SessionScenario.holds "data" "in/a.csv" "x,y")
                "s3://data/in/a.csv" new
  /\ path_exists (SessionScenario.holds "data" "in/a.csv" "x,y")
                 "s3://data/in/a.csv" new
     = (Raise TypeError, new)
  /\ fst (path_exists
            (SessionScenario.store (Raise (ClientError "AccessDenied"))
                                   (Ok None))
            "s3://data/in/a.csv" new) = Ok true.
Proof.
  split; [|split].
  - exact (proj1 (path_exists_ignores_the_key
                    (SessionScenario.holds "data" "in/a.csv" "x,y")
                    "s3://data/in/a.csv"
                    (mkParsedPath "s3://data/in/a.csv" "data" "in/a.csv")
                    new eq_refl)
                 "s3://data/no/such/key"
                 (mkParsedPath "s3://data/no/such/key" "data" "no/such/key")
                 eq_refl eq_refl).
  - exact (proj2 (proj2 (proj2 (path_exists_ignores_the_key
                    (SessionScenario.holds "data" "in/a.csv" "x,y")
                    "s3://data/in/a.csv"
                    (mkParsedPath "s3://data/in/a.csv" "data" "in/a.csv")
                    new eq_refl)))
                 TypeError eq_refl eq_refl).
  - apply (proj1 (proj2 (proj2 (path_exists_ignores_the_key
                    (SessionScenario.store (Raise (ClientError "AccessDenied"))
                                           (Ok None))
                    "s3://data/in/a.csv"
                    (mkParsedPath "s3://data/in/a.csv" "data" "in/a.csv")
                    new eq_refl)))
                 (ClientError "AccessDenied") "AccessDenied").
    + reflexivity.
    + reflexivity.
    + discriminate.
Defined.

End S3SessionFacts.

(** ** More on the poller, the listener and the blocking wait *)

Module WatchFacts.
Import ClusterManager ClusterManagerFacts PollTrace.

Section Poller.

Variable env : Env.
Variable self : Self.
Variables step_id cluster_id : string.

(** A run of the poller that returns: [k] turns, each with two queries,
    one state put on the pipe and one pause, then the query that finds a
    shutdown state, and the close. *)
Lemma poll_returns_inv (fuel : nat) :
  forall w w' : World,
    _poll env self fuel step_id cluster_id w = (Ok tt, w') ->
    exists k,
      queries w' = queries w + 2 * k + 1
      /\ pipe w'
         = (pipe w ++ republished env step_id cluster_id (queries w) k)%list
      /\ sent (trace w')
         = (sent (trace w)
            ++ republished env step_id cluster_id (queries w) k)%list
      /\ slept (trace w') = (slept (trace w) ++ repeat (_poll_time self) k)%list
      /\ tx_closed w' = true
      /\ forallb (fun st => negb (in_list st _poll_shutdown_states))
                 (tested env step_id cluster_id (queries w) k) = true
      /\ in_list (State (describe_step env (queries w + 2 * k)
                                       cluster_id step_id))
                 _poll_shutdown_states = true
      /\ received (trace w') = received (trace w)
      /\ calls (trace w') = calls (trace w).
Proof.
  induction fuel as [|fuel IH]; intros w w' H; [discriminate H|].
  cbn [_poll] in H. unfold bind at 1 in H.
  destruct (step_status_effect env step_id cluster_id w)
    as (w1 & E1 & Q1 & P1 & C1 & K1 & S1 & R1 & L1 & T1 & A1).
  rewrite E1 in H.
  destruct (observe env step_id cluster_id (queries w)) as [r| e | |] eqn:Hr;
    try discriminate H.
  pose proof (observe_state _ _ _ _ _ Hr) as Hst.
  destruct (in_list (state (fst r)) _poll_shutdown_states) eqn:Ht;
    cbn [negb] in H.
  - unfold bind, print, emit, close_tx in H. cbn in H.
    inversion H; subst w'; clear H.
    exists 0. cbn. rewrite !sent_app, !slept_app, !received_app, !calls_app.
    cbn. rewrite !List.app_nil_r, !Nat.add_0_r, <- Hst.
    repeat split; try congruence; try lia. exact Ht.
  - unfold bind at 1 in H.
    destruct (step_status_effect env step_id cluster_id w1)
      as (w2 & E2 & Q2 & P2 & C2 & K2 & S2 & R2 & L2 & T2 & A2).
    rewrite E2 in H.
    destruct (observe env step_id cluster_id (queries w1))
      as [again| e | |] eqn:Ha; try discriminate H.
    pose proof (observe_state _ _ _ _ _ Ha) as Hsa.
    unfold bind at 1 in H. unfold send in H.
    destruct (tx_closed w2) eqn:Hopen; [discriminate H|].
    unfold bind at 1 in H. unfold sleep, emit in H.
    cbn [queries pipe tx_closed keep_alive trace] in H.
    apply IH in H.
    cbn [queries pipe tx_closed keep_alive trace] in H.
    destruct H as (k & Hq & Hp & Hs & Hl & Hc & Hf & Hz & Hrv & Hca).
    exists (S k).
    rewrite !sent_app, !slept_app in *. rewrite !received_app in Hrv.
    rewrite !calls_app in Hca. cbn in Hs, Hl, Hrv, Hca.
    rewrite Q2, Q1 in *. rewrite Hsa in *.
    cbn [republished tested forallb repeat].
    rewrite <- Hst, Ht. cbn [negb andb].
    replace (queries w + 2 * S k) with (S (S (queries w)) + 2 * k) by lia.
    repeat split; try assumption.
    + rewrite Hp, P2, P1, <- List.app_assoc. reflexivity.
    + rewrite Hs, S2, S1. rewrite ?List.app_nil_r, <- ?List.app_assoc.
      reflexivity.
    + rewrite Hl, L2, L1. rewrite ?List.app_nil_r, <- ?List.app_assoc.
      reflexivity.
    + rewrite Hrv, ?List.app_nil_r. congruence.
    + lia.
Qed.


(** The same for the blocking wait: each turn is one query and one
    pause. *)
Lemma report_step_goes_on (fuel : nat) :
  forall w : World,
    (forall n, exists r,
          observe env step_id cluster_id n = Ok r
          /\ in_list (state (fst r)) report_step_shutdown_states = false) ->
    fst (report_step env self fuel step_id cluster_id w) = OutOfFuel
    /\ queries (snd (report_step env self fuel step_id cluster_id w))
       = queries w + fuel
    /\ slept (trace (snd (report_step env self fuel step_id cluster_id w)))
       = (slept (trace w) ++ repeat (_poll_time self) fuel)%list.
Proof.
  induction fuel as [|fuel IH]; intros w Hrun.
  - cbn. rewrite List.app_nil_r. repeat split. lia.
  - destruct (Hrun (queries w)) as (r & Hr & Ht).
    destruct (step_status_effect env step_id cluster_id w)
      as (w1 & E1 & Q1 & P1 & C1 & K1 & S1 & R1 & L1 & T1 & A1).
    rewrite Hr in E1.
    set (w2 := mkWorld (queries w1) (pipe w1) (tx_closed w1) (keep_alive w1)
                       (trace w1 ++ [ESleep (_poll_time self)])).
    assert (E : report_step env self (S fuel) step_id cluster_id w
                = report_step env self fuel step_id cluster_id w2).
    { cbn [report_step]. unfold bind at 1. rewrite E1. cbn [fst].
      rewrite Ht. cbn [negb]. reflexivity. }
    rewrite E. destruct (IH w2 Hrun) as (Ho & Hq & Hl).
    rewrite Ho, Hq, Hl. subst w2. cbn [queries trace].
    rewrite slept_app, Q1, L1. cbn.
    rewrite <- List.app_assoc. repeat split. lia.
Qed.

End Poller.

(** X11: a run of [_poll] that returns has made two status queries for
    every state it published and one more: after [k] turns it has asked
    [2 k + 1] times, has put on the pipe the states of the second
    answers of the turns, in order, has slept [k] times [_poll_time],
    and has closed the send side; it took nothing off the pipe and
    called nothing. *)
Theorem poll_asks_twice_a_turn
        (env : Env) (self : Self) (step_id cluster_id : string)
        (fuel : nat) (w w' : World) :
  _poll env self fuel step_id cluster_id w = (Ok tt, w') ->
  exists k,
    queries w' = queries w + 2 * k + 1
    /\ pipe w'
       = (pipe w ++ republished env step_id cluster_id (queries w) k)%list
    /\ sent (trace w')
       = (sent (trace w)
          ++ republished env step_id cluster_id (queries w) k)%list
    /\ slept (trace w') = (slept (trace w) ++ repeat (_poll_time self) k)%list
    /\ tx_closed w' = true
    /\ received (trace w') = received (trace w)
    /\ calls (trace w') = calls (trace w).
Proof.
  intros H.
  destruct (poll_returns_inv env self step_id cluster_id fuel w w' H)
    as (k & Hq & Hp & Hs & Hl & Hc & _ & _ & Hr & Ha).
  exists k. repeat split; assumption.
Qed.

Lemma poll_asks_twice_a_turn_witness :
  exists k,
    queries (snd (_poll (Scenario.service (steady 2) (Raise NoSuchKey)
                                          None (Ok []))
                        Scenario.manager 5 "s-1" "j-1" fresh))
    = 0 + 2 * k + 1
    /\ pipe (snd (_poll (Scenario.service (steady 2) (Raise NoSuchKey)
                                          None (Ok []))
                        Scenario.manager 5 "s-1" "j-1" fresh))
       = ["RUNNING"; "RUNNING"]
    /\ slept (trace (snd (_poll (Scenario.service (steady 2) (Raise NoSuchKey)
                                                  None (Ok []))
                                Scenario.manager 5 "s-1" "j-1" fresh)))
       = [60; 60].
Proof.
  destruct (poll_asks_twice_a_turn
              (Scenario.service (steady 2) (Raise NoSuchKey) None (Ok []))
              Scenario.manager "s-1" "j-1" 5 fresh
              (snd (_poll (Scenario.service (steady 2) (Raise NoSuchKey)
                                            None (Ok []))
                          Scenario.manager 5 "s-1" "j-1" fresh))
              eq_refl)
    as (k & Hq & _).
  exists k. split; [exact Hq|]. split; reflexivity.
Defined.



(** X13: while the service reports no shutdown state, [report_step]
    does not return: whatever the fuel, it is used up, with one query
    and one pause of [_poll_time] for each unit of it. *)
Theorem report_step_never_returns_without_shutdown_state
        (env : Env) (self : Self) (step_id cluster_id : string)
        (fuel : nat) (w : World) :
  (forall n, exists r,
        observe env step_id cluster_id n = Ok r
        /\ in_list (state (fst r)) report_step_shutdown_states = false) ->
  fst (report_step env self fuel step_id cluster_id w) = OutOfFuel
  /\ queries (snd (report_step env self fuel step_id cluster_id w))
     = queries w + fuel
  /\ slept (trace (snd (report_step env self fuel step_id cluster_id w)))
     = (slept (trace w) ++ repeat (_poll_time self) fuel)%list.
Proof. apply report_step_goes_on. Qed.

Lemma report_step_never_returns_without_shutdown_state_witness :
  fst (report_step (Scenario.service (fun _ => Scenario.answer "RUNNING" None)
                                     (Raise NoSuchKey) None (Ok []))
                   Scenario.manager 4 "s-1" "j-1" fresh) = OutOfFuel
  /\ queries (snd (report_step
                     (Scenario.service (fun _ => Scenario.answer "RUNNING" None)
                                       (Raise NoSuchKey) None (Ok []))
                     Scenario.manager 4 "s-1" "j-1" fresh)) = 0 + 4
  /\ slept (trace (snd (report_step
                     (Scenario.service (fun _ => Scenario.answer "RUNNING" None)
                                       (Raise NoSuchKey) None (Ok []))
                     Scenario.manager 4 "s-1" "j-1" fresh)))
     = ([] ++ repeat 60 4)%list.
Proof.
  apply (report_step_never_returns_without_shutdown_state
           (Scenario.service (fun _ => Scenario.answer "RUNNING" None)
                             (Raise NoSuchKey) None (Ok []))
           Scenario.manager "s-1" "j-1" 4 fresh).
  intros n. eexists. split; [apply observe_plain|]; reflexivity.
Defined.

(** *** The listener *)

(** A state that does not differ from the target is the target. *)
Lemma differs_false (a : string) (callback_arg : option string) :
  differs a callback_arg = false -> callback_arg = Some a.
Proof.
  destruct callback_arg as [t|]; cbn; [|discriminate].
  intros H. apply negb_false_iff, String.eqb_eq in H. now subst.
Qed.

(** A run of the listener: if it returns, its last two events are the
    receipt of the target and the call, and there is no other call; if
    it does not return, there is no call at all. *)
Lemma listener_inv (fuel : nat) (callback : option Callable)
      (callback_arg : option string) :
  forall w : World,
    (fst (_listener fuel callback callback_arg w) = Ok tt ->
     exists c t u,
       callback = Some c /\ callback_arg = Some t
       /\ trace (snd (_listener fuel callback callback_arg w))
          = (u ++ [ERecv t; ECall c])%list
       /\ calls u = calls (trace w))
    /\ (fst (_listener fuel callback callback_arg w) <> Ok tt ->
        calls (trace (snd (_listener fuel callback callback_arg w)))
        = calls (trace w)).
Proof.
  induction fuel as [|fuel IH]; intros w.
  - cbn. split; [discriminate | reflexivity].
  - destruct w as [q p closed alive t].
    destruct p as [|a rest].
    + cbn. destruct closed; cbn; split; (discriminate || reflexivity).
    + destruct (differs a callback_arg) eqn:D.
      * destruct rest as [|b rest'].
        -- cbn [_listener]. unfold bind, recv. cbn. rewrite D. cbn.
           destruct closed; cbn; rewrite calls_app; cbn;
             (split; [discriminate | intros _; lia]).
        -- rewrite (listener_turn fuel callback callback_arg a b rest' q
                                  closed alive t D).
           match goal with
           | |- context [_listener fuel callback callback_arg ?w3] =>
               destruct (IH w3) as (IH1 & IH2)
           end.
           cbn [trace] in IH1, IH2. rewrite calls_app in IH1, IH2.
           cbn in IH1, IH2. rewrite Nat.add_0_r in IH1, IH2.
           split; assumption.
      * cbn [_listener]. unfold bind, recv. cbn. rewrite D. cbn.
        apply differs_false in D. subst callback_arg.
        destruct callback as [c|]; cbn.
        -- split; [|intros N; now elim N].
           intros _. exists c, a, t. repeat split.
           now rewrite <- List.app_assoc.
        -- rewrite calls_app. cbn. split; [discriminate | intros _; lia].
Qed.

(** No state on the pipe is the target: the listener does not return
    and does not call. *)
Lemma listener_without_match (fuel : nat) (callback : option Callable)
      (callback_arg : option string) :
  forall w : World,
    no_match (pipe w) callback_arg = true ->
    fst (_listener fuel callback callback_arg w) <> Ok tt
    /\ calls (trace (snd (_listener fuel callback callback_arg w)))
       = calls (trace w).
Proof.
  induction fuel as [|fuel IH]; intros w Hn.
  - cbn. split; [discriminate | reflexivity].
  - destruct w as [q p closed alive t]. cbn [pipe] in Hn.
    destruct p as [|a [|b rest]].
    + cbn. destruct closed; cbn; split; (discriminate || reflexivity).
    + cbn in Hn. rewrite andb_true_r in Hn.
      cbn [_listener]. unfold bind, recv. cbn. rewrite Hn. cbn.
      destruct closed; cbn; rewrite calls_app; cbn;
        (split; [discriminate | lia]).
    + cbn [no_match forallb] in Hn.
      apply andb_true_iff in Hn as (Ha & Hn).
      apply andb_true_iff in Hn as (_ & Hn).
      rewrite (listener_turn fuel callback callback_arg a b rest q closed
                             alive t Ha).
      match goal with
      | |- context [_listener fuel callback callback_arg ?w3] =>
          destruct (IH w3 Hn) as (IH1 & IH2)
      end.
      split; [exact IH1|]. rewrite IH2. cbn. rewrite calls_app. cbn. lia.
Qed.

(** X14: the listener calls the callback at most once, and only
    directly after receiving a state equal to the target: whenever a
    call was made, the receipt of the target is the event before it and
    there is no other call.  When the listener returns it has made that
    one call; without a target it makes no call and does not return. *)
Theorem listener_calls_at_most_once
        (fuel : nat) (callback : option Callable)
        (callback_arg : option string) (w : World) :
  calls (trace (snd (_listener fuel callback callback_arg w)))
  <= calls (trace w) + 1
  /\ (fst (_listener fuel callback callback_arg w) = Ok tt ->
      exists c t u,
        callback = Some c /\ callback_arg = Some t
        /\ trace (snd (_listener fuel callback callback_arg w))
           = (u ++ [ERecv t; ECall c])%list
        /\ calls u = calls (trace w))
  /\ (calls (trace (snd (_listener fuel callback callback_arg w)))
      <> calls (trace w) ->
      exists c t u,
        callback = Some c /\ callback_arg = Some t
        /\ trace (snd (_listener fuel callback callback_arg w))
           = (u ++ [ERecv t; ECall c])%list
        /\ calls u = calls (trace w))
  /\ (callback_arg = None ->
      fst (_listener fuel callback callback_arg w) <> Ok tt
      /\ calls (trace (snd (_listener fuel callback callback_arg w)))
         = calls (trace w)).
Proof.
  destruct (listener_inv fuel callback callback_arg w) as (H1 & H2).
  assert (Hno : callback_arg = None ->
                fst (_listener fuel callback callback_arg w) <> Ok tt).
  { intros -> E. destruct (H1 E) as (c & t & u & _ & Ht & _). discriminate. }
  split; [|split; [exact H1 | split]].
  - destruct (fst (_listener fuel callback callback_arg w)) as [[]| e | |] eqn:E.
    + destruct (H1 eq_refl) as (c & t & u & _ & _ & Ht & Hu).
      rewrite Ht, calls_app, Hu. cbn. lia.
    + rewrite H2; [lia | discriminate].
    + rewrite H2; [lia | discriminate].
    + rewrite H2; [lia | discriminate].
  - intros Hcalled.
    destruct (fst (_listener fuel callback callback_arg w)) as [[]| e | |] eqn:E.
    + exact (H1 eq_refl).
    + elim Hcalled. apply H2. discriminate.
    + elim Hcalled. apply H2. discriminate.
    + elim Hcalled. apply H2. discriminate.
  - intros Hnone. split; [now apply Hno|]. apply H2. now apply Hno.
Qed.

Lemma listener_calls_at_most_once_witness :
  (exists c t u,
      Some Scenario.callback = Some c /\ Some "RUNNING" = Some t
      /\ trace (snd (_listener 3 (Some Scenario.callback) (Some "RUNNING")
                               (Scenario.in_flight
                                  ["PENDING"; "PENDING"; "RUNNING"] true)))
         = (u ++ [ERecv t; ECall c])%list
      /\ calls u = 0)
  /\ fst (_listener 3 (Some Scenario.callback) None
                    (Scenario.in_flight ["PENDING"; "RUNNING"] true))
     <> Ok tt
  /\ calls (trace (snd (_listener 3 (Some Scenario.callback) None
                                  (Scenario.in_flight ["PENDING"; "RUNNING"]
                                                      true))))
     = 0.
Proof.
  split.
  - exact (proj1 (proj2 (listener_calls_at_most_once
                           3 (Some Scenario.callback) (Some "RUNNING")
                           (Scenario.in_flight
                              ["PENDING"; "PENDING"; "RUNNING"] true)))
                 eq_refl).
  - exact (proj2 (proj2 (proj2 (listener_calls_at_most_once
                           3 (Some Scenario.callback) None
                           (Scenario.in_flight ["PENDING"; "RUNNING"] true))))
                 eq_refl).
Defined.

(** *** Poller and listener together *)

(** When the two answers of every turn agree, what is published is what
    was tested. *)
Lemma republished_tested (env : Env) (step_id cluster_id : string) (k : nat) :
  forall q,
    (forall i,
        State (describe_step env (q + 2 * i + 1) cluster_id step_id)
        = State (describe_step env (q + 2 * i) cluster_id step_id)) ->
    republished env step_id cluster_id q k = tested env step_id cluster_id q k.
Proof.
  induction k as [|k IH]; intros q H; [reflexivity|].
  cbn [republished tested]. f_equal.
  - specialize (H 0). now rewrite Nat.mul_0_r, Nat.add_0_r, Nat.add_1_r in H.
  - apply IH. intros i. specialize (H (S i)).
    replace (S (S q) + 2 * i + 1) with (q + 2 * S i + 1) by lia.
    replace (S (S q) + 2 * i) with (q + 2 * S i) by lia.
    exact H.
Qed.

(** States that are no shutdown states differ from a target that is
    one. *)
Lemma no_match_shutdown_target (t : string) (states : list string) :
  in_list t _poll_shutdown_states = true ->
  forallb (fun st => negb (in_list st _poll_shutdown_states)) states = true ->
  no_match states (Some t) = true.
Proof.
  intros Ht. induction states as [|a states IH]; [reflexivity|].
  cbn [forallb no_match]. intros H.
  apply andb_true_iff in H as (Ha & H).
  apply andb_true_iff. split; [|now apply IH].
  cbn [differs]. destruct (String.eqb a t) eqn:E; [|reflexivity].
  apply String.eqb_eq in E. subst a. rewrite Ht in Ha. discriminate.
Qed.

(** X15: a watch for a shutdown state does not fire while the two
    answers of each turn of the poller agree: after a run of [_poll]
    that returns, started on an empty pipe, a listener whose target is
    a shutdown state does not return and does not call the callback,
    since the poller never publishes the state it stops on. *)
Theorem watch_for_shutdown_state_never_fires
        (env : Env) (self : Self) (step_id cluster_id : string)
        (fuel : nat) (w w' : World) (t : string)
        (listener_fuel : nat) (callback : option Callable) :
  _poll env self fuel step_id cluster_id w = (Ok tt, w') ->
  pipe w = [] ->
  (forall i,
      State (describe_step env (queries w + 2 * i + 1) cluster_id step_id)
      = State (describe_step env (queries w + 2 * i) cluster_id step_id)) ->
  in_list t _poll_shutdown_states = true ->
  fst (_listener listener_fuel callback (Some t) w') <> Ok tt
  /\ calls (trace (snd (_listener listener_fuel callback (Some t) w')))
     = calls (trace w).
Proof.
  intros H Hempty Hsteady Ht.
  destruct (poll_returns_inv env self step_id cluster_id fuel w w' H)
    as (k & _ & Hp & _ & _ & _ & Hf & _ & _ & Hc).
  rewrite Hempty, (republished_tested env step_id cluster_id k _ Hsteady) in Hp.
  cbn [app] in Hp.
  destruct (listener_without_match listener_fuel callback (Some t) w')
    as (H1 & H2).
  - rewrite Hp. now apply no_match_shutdown_target.
  - split; [exact H1 | congruence].
Qed.

Lemma watch_for_shutdown_state_never_fires_witness :
  fst (_listener 9 (Some Scenario.callback) (Some "COMPLETED")
                 (snd (_poll (Scenario.service (steady 2) (Raise NoSuchKey)
                                               None (Ok []))
                             Scenario.manager 5 "s-1" "j-1" fresh)))
  <> Ok tt
  /\ calls (trace (snd
       (_listener 9 (Some Scenario.callback) (Some "COMPLETED")
                  (snd (_poll (Scenario.service (steady 2) (Raise NoSuchKey)
                                                None (Ok []))
                              Scenario.manager 5 "s-1" "j-1" fresh)))))
     = 0.
Proof.
  apply (watch_for_shutdown_state_never_fires
           (Scenario.service (steady 2) (Raise NoSuchKey) None (Ok []))
           Scenario.manager "s-1" "j-1" 5 fresh
           (snd (_poll (Scenario.service (steady 2) (Raise NoSuchKey)
                                         None (Ok []))
                       Scenario.manager 5 "s-1" "j-1" fresh))
           "COMPLETED" 9 (Some Scenario.callback)).
  - reflexivity.
  - reflexivity.
  - intros i. cbn [Scenario.service describe_step queries fresh Nat.add].
    unfold steady.
    destruct (Nat.ltb_spec (2 * i + 1) (2 * 2));
      destruct (Nat.ltb_spec (2 * i) (2 * 2)); try reflexivity; lia.
  - reflexivity.
Defined.



End WatchFacts.

(** ** More on the status normaliser *)

Module NormaliserFacts.
Import ClusterManager ClusterManagerFacts.

(** X17: a step with failure details whose log path does not match
    [s3://bucket/] makes [step_status] raise [AttributeError] after the
    status query, although the answer held name, parameters and state;
    nothing is printed. *)
Theorem step_status_rejects_foreign_log_path
        (env : Env) (step_id cluster_id : string) (w : World)
        (details : FailureDetails) (p : string) :
  Failure (describe_step env (queries w) cluster_id step_id) = Some details ->
  LogFile details = Some p ->
  PyStr.re_match_s3 p = None ->
  step_status env step_id cluster_id w
  = (Raise AttributeError,
     mkWorld (S (queries w)) (pipe w) (tx_closed w) (keep_alive w)
             (trace w ++ [EDescribeStep cluster_id step_id])).
Proof.
  intros HF HL Hm.
  unfold step_status, client_describe_step, bind. cbn.
  rewrite HF. cbn. rewrite HL. cbn.
  unfold log_location, raw_log_location. rewrite Hm. reflexivity.
Qed.

Lemma step_status_rejects_foreign_log_path_witness :
  step_status
    (Scenario.service
       (fun _ => Scenario.answer "FAILED"
                   (Some (mkFailureDetails (Some "boom")
                                           (Some "hdfs://logs/j-1/steps/s-1/"))))
       (Ok "log") None (Ok []))
    "s-1" "j-1" fresh
  = (Raise AttributeError,
     mkWorld 1 [] false false [EDescribeStep "j-1" "s-1"]).
Proof.
  exact (step_status_rejects_foreign_log_path
           (Scenario.service
              (fun _ => Scenario.answer "FAILED"
                          (Some (mkFailureDetails
                                   (Some "boom")
                                   (Some "hdfs://logs/j-1/steps/s-1/"))))
              (Ok "log") None (Ok []))
           "s-1" "j-1" fresh
           (mkFailureDetails (Some "boom") (Some "hdfs://logs/j-1/steps/s-1/"))
           "hdfs://logs/j-1/steps/s-1/" eq_refl eq_refl eq_refl).
Defined.

(** X18: the place a log is fetched from, read back: the bucket is the
    one [parse_path] finds in the log path and has no slash, the path
    starts with [s3://bucket/], and the key is the key [parse_path]
    finds, with the suffix added when it is missing; and taking the
    place apart fails with [AttributeError] only. *)
Theorem log_location_agrees_with_parse_path (p : string) :
  ((exists loc, log_location p = Ok loc) \/ log_location p = Raise AttributeError)
  /\ (forall b k,
         log_location p = Ok (b, k) ->
         exists pp,
           S3Manager.parse_path p = Ok pp
           /\ b = S3Manager.bucket pp
           /\ k = with_log_suffix (S3Manager.key pp)
           /\ PyStr.has_char PyStr.slash b = false
           /\ String.prefix ("s3://" ++ b ++ "/") p = true).
Proof.
  unfold log_location. rewrite raw_log_location_parse_path.
  destruct (ParsePathFacts.parse_path_total p) as [(pp & H) | H]; rewrite H;
    cbn [obind fst snd].
  - split; [left; eauto|].
    intros b k E. inversion E; subst b k. exists pp.
    destruct (ParsePathFacts.parse_path_inv p pp H) as (_ & Hs & _ & _ & Hp).
    repeat split; try assumption.
    unfold S3Manager.unparse in Hp.
    assert (Hpre : forall rest,
               String.prefix ("s3://" ++ S3Manager.bucket pp ++ "/")
                 ("s3://" ++ S3Manager.bucket pp ++ "/" ++ rest) = true).
    { intros rest.
      replace ("s3://" ++ S3Manager.bucket pp ++ "/" ++ rest)
        with (("s3://" ++ S3Manager.bucket pp ++ "/") ++ rest)
        by (rewrite !PyStrFacts.app_assoc; reflexivity).
      apply PyStrFacts.prefix_app. }
    destruct Hp as [Hp | (rest & Hp)]; rewrite Hp.
    + apply Hpre.
    + replace (("s3://" ++ S3Manager.bucket pp ++ "/" ++ S3Manager.key pp)
               ++ ("s3://" ++ S3Manager.bucket pp ++ "/") ++ rest)
        with ("s3://" ++ S3Manager.bucket pp ++ "/"
              ++ (S3Manager.key pp
                  ++ ("s3://" ++ S3Manager.bucket pp ++ "/") ++ rest)).
      * apply Hpre.
      * change ("s3://" ++ S3Manager.bucket pp ++ "/" ++ S3Manager.key pp)
          with ("s3://" ++ (S3Manager.bucket pp ++ "/" ++ S3Manager.key pp)).
        rewrite !PyStrFacts.app_assoc. reflexivity.
  - split; [now right | discriminate].
Qed.

Lemma log_location_agrees_with_parse_path_witness :
  exists pp,
    S3Manager.parse_path "s3://logs/j-1/steps/s-1/" = Ok pp
    /\ "logs" = S3Manager.bucket pp
    /\ "j-1/steps/s-1/stderr.gz" = with_log_suffix (S3Manager.key pp)
    /\ PyStr.has_char PyStr.slash "logs" = false
    /\ String.prefix ("s3://" ++ "logs" ++ "/") "s3://logs/j-1/steps/s-1/"
       = true.
Proof.
  exact (proj2 (log_location_agrees_with_parse_path "s3://logs/j-1/steps/s-1/")
               "logs" "j-1/steps/s-1/stderr.gz" eq_refl).
Defined.

(** X21: the log of a failed step, when the store has it: the text that
    [decompress_decode] makes of the object is the second component of
    the result and nothing is printed; a payload it cannot handle makes
    [step_status] raise the exception of the decompression. *)
Theorem step_status_returns_decoded_log
        (env : Env) (step_id cluster_id : string) (w : World)
        (details : FailureDetails) (p b k body : string) :
  Failure (describe_step env (queries w) cluster_id step_id) = Some details ->
  LogFile details = Some p ->
  log_location p = Ok (b, k) ->
  get_object env b k = Ok body ->
  (forall text,
      decompress_decode env body = Ok text ->
      exists r,
        step_status env step_id cluster_id w
        = (Ok (r, Some text),
           mkWorld (S (queries w)) (pipe w) (tx_closed w) (keep_alive w)
                   (trace w ++ [EDescribeStep cluster_id step_id]))
        /\ state r = State (describe_step env (queries w) cluster_id step_id)
        /\ option_map logfile (failure_details r) = Some p)
  /\ (forall e,
         decompress_decode env body = Raise e ->
         e <> NoSuchKey ->
         step_status env step_id cluster_id w
         = (Raise e,
            mkWorld (S (queries w)) (pipe w) (tx_closed w) (keep_alive w)
                    (trace w ++ [EDescribeStep cluster_id step_id]))).
Proof.
  intros HF HL Hloc Hget.
  rewrite (step_status_with_details env step_id cluster_id w details p b k
             HF HL Hloc).
  unfold bind, fetch_log. rewrite Hget. cbn [obind]. split.
  - intros text Hd. rewrite Hd. cbn. eexists. repeat split.
  - intros e Hd Hne. rewrite Hd.
    destruct e; try reflexivity. now elim Hne.
Qed.

Lemma step_status_returns_decoded_log_witness :
  (exists r,
      step_status
        (Scenario.service Scenario.failed_with_log (Ok "Traceback") None (Ok []))
        "s-1" "j-1" fresh
      = (Ok (r, Some "Traceback"),
         mkWorld 1 [] false false [EDescribeStep "j-1" "s-1"])
      /\ state r = "FAILED"
      /\ option_map logfile (failure_details r)
         = Some "s3://logs/j-1/steps/s-1/")
  /\ step_status
       (mkEnv (fun _ _ _ => Scenario.failed_with_log 0)
              (fun _ _ => Ok "not gzip")
              (fun _ => Raise (DataError "BadGzipFile"))
              (fun _ => mkJobFlowResponse None) (fun _ => Ok [])
              (fun q => (q, "")))
       "s-1" "j-1" fresh
     = (Raise (DataError "BadGzipFile"),
        mkWorld 1 [] false false [EDescribeStep "j-1" "s-1"]).
Proof.
  split.
  - exact (proj1 (step_status_returns_decoded_log
                    (Scenario.service Scenario.failed_with_log
                                      (Ok "Traceback") None (Ok []))
                    "s-1" "j-1" fresh
                    (mkFailureDetails None (Some "s3://logs/j-1/steps/s-1/"))
                    "s3://logs/j-1/steps/s-1/" "logs" "j-1/steps/s-1/stderr.gz"
                    "Traceback" eq_refl eq_refl eq_refl eq_refl)
                 "Traceback" eq_refl).
  - apply (proj2 (step_status_returns_decoded_log
                    (mkEnv (fun _ _ _ => Scenario.failed_with_log 0)
                           (fun _ _ => Ok "not gzip")
                           (fun _ => Raise (DataError "BadGzipFile"))
                           (fun _ => mkJobFlowResponse None) (fun _ => Ok [])
                           (fun q => (q, "")))
                    "s-1" "j-1" fresh
                    (mkFailureDetails None (Some "s3://logs/j-1/steps/s-1/"))
                    "s3://logs/j-1/steps/s-1/" "logs" "j-1/steps/s-1/stderr.gz"
                    "not gzip" eq_refl eq_refl eq_refl eq_refl)
                 (DataError "BadGzipFile")).
    + reflexivity.
    + discriminate.
Defined.

(** X22: whatever its outcome, [step_status] makes exactly one status
    query and its outcome depends on the world through the number of
    queries made only; it leaves the pipe, its send side and
    [instance_config] as they were, sends, receives and starts nothing,
    calls no callback and does not sleep. *)
Theorem step_status_is_one_query
        (env : Env) (step_id cluster_id : string) (w : World) :
  fst (step_status env step_id cluster_id w)
  = observe env step_id cluster_id (queries w)
  /\ queries (snd (step_status env step_id cluster_id w)) = S (queries w)
  /\ pipe (snd (step_status env step_id cluster_id w)) = pipe w
  /\ tx_closed (snd (step_status env step_id cluster_id w)) = tx_closed w
  /\ keep_alive (snd (step_status env step_id cluster_id w)) = keep_alive w
  /\ sent (trace (snd (step_status env step_id cluster_id w)))
     = sent (trace w)
  /\ received (trace (snd (step_status env step_id cluster_id w)))
     = received (trace w)
  /\ slept (trace (snd (step_status env step_id cluster_id w)))
     = slept (trace w)
  /\ started (trace (snd (step_status env step_id cluster_id w)))
     = started (trace w)
  /\ calls (trace (snd (step_status env step_id cluster_id w)))
     = calls (trace w).
Proof.
  destruct (step_status_effect env step_id cluster_id w)
    as (w' & E & H).
  rewrite E. cbn [fst snd]. split; [reflexivity | exact H].
Qed.

End NormaliserFacts.

(** ** Starting a watch: what blocks and what does not *)

Module WatchStepFacts.
Import ClusterManager ClusterManagerFacts.



End WatchStepFacts.

(** ** cluster_status and run_steps *)

Module ClusterOpsFacts.
Import ClusterManager ClusterOps.

Lemma append_each_app (steps acc : list StepSummary) :
  append_each acc steps = (acc ++ steps)%list.
Proof.
  revert acc; induction steps as [|s steps IH]; intros acc; cbn.
  - now rewrite List.app_nil_r.
  - rewrite IH, <- List.app_assoc. reflexivity.
Qed.

(** X19: [cluster_status] hands on the listed steps in their order and
    gives a termination cause exactly for a cluster in one of the three
    terminated states: then the message of the state change, and a
    [KeyError] when the answer holds none. *)
Theorem cluster_status_cause_iff_terminated
        (describe_cluster : string -> ClusterResponse)
        (list_cluster_steps : string -> list StepSummary)
        (cluster_id : string) :
  (forall out cause,
      cluster_status describe_cluster list_cluster_steps cluster_id
      = Ok (out, cause) ->
      steps out = list_cluster_steps cluster_id
      /\ cluster_name out = ClusterName (describe_cluster cluster_id)
      /\ cluster_state out = ClusterState (describe_cluster cluster_id)
      /\ (in_list (cluster_state out) terminated_states = true ->
          exists m,
            cause = Some m
            /\ state_change_message (describe_cluster cluster_id) = Ok m)
      /\ (in_list (cluster_state out) terminated_states = false ->
          cause = None))
  /\ (in_list (ClusterState (describe_cluster cluster_id)) terminated_states
      = false ->
      exists out,
        cluster_status describe_cluster list_cluster_steps cluster_id
        = Ok (out, None))
  /\ (in_list (ClusterState (describe_cluster cluster_id)) terminated_states
      = true ->
      forall e,
        state_change_message (describe_cluster cluster_id) = Raise e ->
        cluster_status describe_cluster list_cluster_steps cluster_id
        = Raise e).
Proof.
  unfold cluster_status. cbn [cluster_state].
  rewrite append_each_app. cbn [app].
  destruct (in_list (ClusterState (describe_cluster cluster_id))
                    terminated_states) eqn:Ht.
  - split; [|split; [discriminate|]].
    + intros out cause E.
      destruct (state_change_message (describe_cluster cluster_id))
        as [m| e | |] eqn:Hm; cbn in E; try discriminate E.
      inversion E; subst out cause. cbn [steps cluster_name cluster_state].
      repeat split; try reflexivity.
      * intros _. now exists m.
      * intros N. rewrite Ht in N. discriminate.
    + intros _ e Hm. now rewrite Hm.
  - split; [|split; [eauto | discriminate]].
    intros out cause E. inversion E; subst out cause.
    cbn [steps cluster_name cluster_state].
    repeat split; try reflexivity.
    intros N. rewrite Ht in N. discriminate.
Qed.

Lemma cluster_status_cause_iff_terminated_witness :
  (exists m,
      Some "Steps completed" = Some m
      /\ state_change_message
           (mkClusterResponse "nightly" "TERMINATED"
              (Some (mkStateChangeReason (Some "Steps completed"))))
         = Ok m)
  /\ (exists out,
         cluster_status
           (fun _ => mkClusterResponse "nightly" "WAITING" None)
           (fun _ => [mkStepSummary "s-1" "Job" "COMPLETED"]) "j-1"
         = Ok (out, None))
  /\ cluster_status
       (fun _ => mkClusterResponse "nightly" "TERMINATED_WITH_ERRORS" None)
       (fun _ => []) "j-1"
     = Raise (KeyError "StateChangeReason").
Proof.
  split; [|split].
  - exact (proj1 (proj2 (proj2 (proj2
             (proj1 (cluster_status_cause_iff_terminated
                       (fun _ => mkClusterResponse "nightly" "TERMINATED"
                                   (Some (mkStateChangeReason
                                            (Some "Steps completed"))))
                       (fun _ => [mkStepSummary "s-1" "Job" "COMPLETED"])
                       "j-1")
                    (mkClusterStatus "nightly" "TERMINATED"
                                     [mkStepSummary "s-1" "Job" "COMPLETED"])
                    (Some "Steps completed") eq_refl)))) eq_refl).
  - exact (proj1 (proj2 (cluster_status_cause_iff_terminated
                           (fun _ => mkClusterResponse "nightly" "WAITING" None)
                           (fun _ => [mkStepSummary "s-1" "Job" "COMPLETED"])
                           "j-1")) eq_refl).
  - exact (proj2 (proj2 (cluster_status_cause_iff_terminated
                           (fun _ => mkClusterResponse "nightly"
                                       "TERMINATED_WITH_ERRORS" None)
                           (fun _ => []) "j-1"))
                 eq_refl (KeyError "StateChangeReason") eq_refl).
Defined.

(** X20: for a list of jobs [run_steps] sends one request with one step
    for each job, in the order of the jobs; each step runs
    [command-runner.jar], fails with [CONTINUE] exactly when
    [terminate_on_failure] is false, and has the class of the job as
    ninth argument, the assembly path as tenth and the arguments of the
    job after them; the step ids of the answer are returned.  For a
    value that is no list nothing is sent and the result is empty. *)
Theorem run_steps_sends_one_step_per_job
        (splitext : string -> string * string)
        (add_job_flow_steps : string -> list StepSpec -> list string)
        (assembly_path cluster_id : string)
        (jobs : list (string * list string)) (terminate_on_failure : bool) :
  (exists sent_steps,
      run_steps splitext add_job_flow_steps assembly_path cluster_id
                (JobList jobs) terminate_on_failure
      = ([AddJobFlowSteps cluster_id sent_steps],
         add_job_flow_steps cluster_id sent_steps)
      /\ length sent_steps = length jobs
      /\ forall i job,
           nth_error jobs i = Some job ->
           exists st,
             nth_error sent_steps i = Some st
             /\ jar st = "command-runner.jar"
             /\ action_on_failure st
                = (if terminate_on_failure
                   then "TERMINATE_CLUSTER" else "CONTINUE")
             /\ nth_error (jar_args st) 8 = Some (fst job)
             /\ nth_error (jar_args st) 9 = Some assembly_path
             /\ skipn 10 (jar_args st) = snd job)
  /\ run_steps splitext add_job_flow_steps assembly_path cluster_id
               NotAList terminate_on_failure
     = ([PrintStepsMustBeList], []).
Proof.
  split; [|reflexivity].
  eexists. split; [reflexivity|]. split; [apply List.length_map|].
  intros i job Hi. eexists. split.
  - apply List.map_nth_error. exact Hi.
  - cbn. destruct terminate_on_failure; repeat split.
Qed.
Lemma run_steps_sends_one_step_per_job_witness :
  exists sent_steps,
    run_steps (fun p => (p, "")) (fun _ sts => map step_name sts)
              "s3://jars/app.jar" "j-1"
              (JobList [("org.example.Load", ["2020"]);
                        ("org.example.Report", [])]) false
    = ([AddJobFlowSteps "j-1" sent_steps], map step_name sent_steps)
    /\ length sent_steps = 2
    /\ exists st,
         nth_error sent_steps 1 = Some st
         /\ action_on_failure st = "CONTINUE"
         /\ nth_error (jar_args st) 8 = Some "org.example.Report"
         /\ nth_error (jar_args st) 9 = Some "s3://jars/app.jar"
         /\ skipn 10 (jar_args st) = [].
Proof.
  destruct (proj1 (run_steps_sends_one_step_per_job
                     (fun p => (p, "")) (fun _ sts => map step_name sts)
                     "s3://jars/app.jar" "j-1"
                     [("org.example.Load", ["2020"]);
                      ("org.example.Report", [])] false))
    as (sent_steps & E & L & H).
  exists sent_steps. split; [exact E|]. split; [exact L|].
  destruct (H 1 ("org.example.Report", []) eq_refl)
    as (st & H1 & _ & H2 & H3 & H4 & H5).
  exists st. repeat split; assumption.
Defined.

End ClusterOpsFacts.

(** ** s3_transform.py *)

Module S3TransformFacts.
Import S3Manager S3Transform.

(** X24: none of the four conversions yields a result.  [csv_to_df],
    [df_to_csv] and [df_to_json] raise [AttributeError] for every
    input, before any request to the store; [json_to_df] never yields a
    frame, and raises [AttributeError] once the fetch, the decoding and
    [json.loads] have succeeded.  Each calls a method,
    [_load_into_buffer] or [_clear_buffer], that the class [Session]
    does not have. *)
Theorem conversions_never_return
        (Frame Json : Type)
        (get_object_body : string -> string -> Outcome string)
        (decode_utf8 : string -> Outcome string)
        (read_csv read_json : string -> Outcome Frame)
        (to_csv to_json : Frame -> Outcome string)
        (json_loads : string -> Outcome Json)
        (json_dumps : Json -> Outcome string)
        (frame : Frame) (path : string) :
  csv_to_df Frame get_object_body decode_utf8 read_csv path
  = Raise AttributeError
  /\ df_to_csv Frame to_csv frame path = Raise AttributeError
  /\ df_to_json Frame to_json frame path = Raise AttributeError
  /\ (forall fr,
         json_to_df Frame Json get_object_body decode_utf8 read_json
                    json_loads json_dumps path <> Ok fr)
  /\ (forall pp body text data,
         parse_path path = Ok pp ->
         get_object_body (bucket pp) (key pp) = Ok body ->
         decode_utf8 body = Ok text ->
         json_loads text = Ok data ->
         json_to_df Frame Json get_object_body decode_utf8 read_json
                    json_loads json_dumps path = Raise AttributeError)
  /\ (forall pp body text e,
         parse_path path = Ok pp ->
         get_object_body (bucket pp) (key pp) = Ok body ->
         decode_utf8 body = Ok text ->
         json_loads text = Raise e ->
         json_to_df Frame Json get_object_body decode_utf8 read_json
                    json_loads json_dumps path = Raise e).
Proof.
  unfold csv_to_df, df_to_csv, df_to_json, json_to_df.
  destruct (ParsePathFacts.parse_path_total path) as [(pp & H) | H];
    rewrite H; cbn [obind].
  - repeat split.
    + intros fr.
      destruct (get_object_body (bucket pp) (key pp)) as [body| | |];
        cbn [obind]; try discriminate.
      destruct (decode_utf8 body) as [text| | |]; cbn [obind];
        try discriminate.
      destruct (json_loads text) as [data| | |]; cbn [obind];
        discriminate.
    + intros pp' body text data Hp Hg Hd Hj. inversion Hp; subst pp'.
      rewrite Hg. cbn [obind]. rewrite Hd. cbn [obind]. rewrite Hj.
      reflexivity.
    + intros pp' body text e Hp Hg Hd Hj. inversion Hp; subst pp'.
      rewrite Hg. cbn [obind]. rewrite Hd. cbn [obind]. rewrite Hj.
      reflexivity.
  - repeat split; discriminate.
Qed.

Lemma conversions_never_return_witness :
  json_to_df string (list nat) (fun _ _ => Ok "[1, 2]") (fun b => Ok b)
             (fun t => Ok t)
             (fun t => if String.eqb t "[1, 2]" then Ok [1; 2]
                       else Raise (DataError "JSONDecodeError"))
             (fun _ => Ok "[1, 2]") "s3://data/in/a.json"
  = Raise AttributeError
  /\ json_to_df string (list nat) (fun _ _ => Ok "{") (fun b => Ok b)
                (fun t => Ok t)
                (fun t => if String.eqb t "[1, 2]" then Ok [1; 2]
                          else Raise (DataError "JSONDecodeError"))
                (fun _ => Ok "[1, 2]") "s3://data/in/a.json"
     = Raise (DataError "JSONDecodeError").
Proof.
  split.
  - exact (proj1 (proj2 (proj2 (proj2 (proj2
             (conversions_never_return
                string (list nat) (fun _ _ => Ok "[1, 2]") (fun b => Ok b)
                (fun t => Ok t) (fun t => Ok t)
                (fun f => Ok f) (fun f => Ok f)
                (fun t => if String.eqb t "[1, 2]" then Ok [1; 2]
                          else Raise (DataError "JSONDecodeError"))
                (fun _ => Ok "[1, 2]") "frame" "s3://data/in/a.json")))))
             (mkParsedPath "s3://data/in/a.json" "data" "in/a.json")
             "[1, 2]" "[1, 2]" [1; 2] eq_refl eq_refl eq_refl eq_refl).
  - exact (proj2 (proj2 (proj2 (proj2 (proj2
             (conversions_never_return
                string (list nat) (fun _ _ => Ok "{") (fun b => Ok b)
                (fun t => Ok t) (fun t => Ok t)
                (fun f => Ok f) (fun f => Ok f)
                (fun t => if String.eqb t "[1, 2]" then Ok [1; 2]
                          else Raise (DataError "JSONDecodeError"))
                (fun _ => Ok "[1, 2]") "frame" "s3://data/in/a.json")))))
             (mkParsedPath "s3://data/in/a.json" "data" "in/a.json")
             "{" "{" (DataError "JSONDecodeError")
             eq_refl eq_refl eq_refl eq_refl).
Defined.

End S3TransformFacts.
